(** * The D&D rules assistant: a shallow embedding of [Project/dnd_agent.py]

    The development follows the class [DnDAssistant]:
    - Python strings and the [str] methods the assistant calls;
    - exceptions and the list object behind [self._referenced_rules],
      threaded through a small state-and-error monad;
    - the rulebook documents and the in-memory index;
    - [_add_referenced_rule], [search_rules], [send_message],
      [_extract_rules_from_response], [get_referenced_rules];
    - the properties of the specification, one theorem each;
    - the worker and the window of [Project/dnd_chat_ui.py] that call
      the assistant, and further properties of both files. *)

From Stdlib Require Import ZArith DecimalString Ascii.
From stdpp Require Import gmap strings list sorting.

(** ** Python strings

    A [str] is a [string]; a character is a code point below 256, and
    the classification of characters is Python's on that range. *)

Module Str.

Definition code (c : ascii) : nat := nat_of_ascii c.

Definition between (lo hi : nat) (c : ascii) : bool :=
  (lo <=? code c) && (code c <=? hi).

(** [c.isspace()], the separators of [str.split()] *)
Definition isspace (c : ascii) : bool :=
  between 9 13 c || between 28 32 c || (code c =? 133) || (code c =? 160).

(** [c.isupper()] for a single character *)
Definition isupper (c : ascii) : bool :=
  between 65 90 c || between 192 214 c || between 216 222 c.

(** [c.isalpha()] for a single character *)
Definition isalpha_char (c : ascii) : bool :=
  between 65 90 c || between 97 122 c
  || (code c =? 170) || (code c =? 181) || (code c =? 186)
  || between 192 214 c || between 216 246 c || between 248 255 c.

Definition lower_char (c : ascii) : ascii :=
  if isupper c then ascii_of_nat (code c + 32) else c.

(** [s.lower()] *)
Fixpoint lower (s : string) : string :=
  match s with
  | EmptyString => EmptyString
  | String c s' => String (lower_char c) (lower s')
  end.

Fixpoint all_alpha (s : string) : bool :=
  match s with
  | EmptyString => true
  | String c s' => isalpha_char c && all_alpha s'
  end.

(** [s.isalpha()]: every character is a letter and there is at least one *)
Definition isalpha (s : string) : bool :=
  match s with
  | EmptyString => false
  | _ => all_alpha s
  end.

(** truthiness of a [str] *)
Definition nonempty (s : string) : bool :=
  match s with
  | EmptyString => false
  | _ => true
  end.

(** [c in chars] for a single character [c] *)
Fixpoint mem (c : ascii) (chars : string) : bool :=
  match chars with
  | EmptyString => false
  | String d chars' => if decide (c = d) then true else mem c chars'
  end.

(** [needle in hay] *)
Fixpoint contains (needle hay : string) : bool :=
  String.prefix needle hay ||
  match hay with
  | EmptyString => false
  | String _ hay' => contains needle hay'
  end.

(** [s.split()]: maximal runs of non-space characters; [cur] is the
    word being read. *)
Fixpoint split_from (cur s : string) : list string :=
  match s with
  | EmptyString => if nonempty cur then [cur] else []
  | String c s' =>
      if isspace c
      then (if nonempty cur then cur :: split_from "" s' else split_from "" s')
      else split_from (cur +:+ String c "") s'
  end.

Definition split (s : string) : list string := split_from "" s.

Fixpoint lstrip (chars s : string) : string :=
  match s with
  | EmptyString => EmptyString
  | String c s' => if mem c chars then lstrip chars s' else s
  end.

Fixpoint rstrip (chars s : string) : string :=
  match s with
  | EmptyString => EmptyString
  | String c s' =>
      match rstrip chars s' with
      | EmptyString => if mem c chars then EmptyString else String c EmptyString
      | r => String c r
      end
  end.

(** [s.strip(chars)] *)
Definition strip (chars s : string) : string := rstrip chars (lstrip chars s).

(** [sep.join(parts)] *)
Definition join (sep : string) (parts : list string) : string :=
  String.concat sep parts.

(** [s[-1]] when [s] is not empty *)
Fixpoint last_char (s : string) : option ascii :=
  match s with
  | EmptyString => None
  | String c EmptyString => Some c
  | String _ s' => last_char s'
  end.

(** [s[0]] when [s] is not empty *)
Definition first_char (s : string) : option ascii :=
  match s with
  | EmptyString => None
  | String c _ => Some c
  end.

(** [str(n)] for an [int] *)
Definition of_int (n : Z) : string := NilZero.string_of_int (Z.to_int n).

Definition newline : string := String (ascii_of_nat 10) "".

End Str.

(** ** Exceptions, list objects and the monad of the methods

    [Exception] stands for an instance of Python's class [Exception],
    the class both handlers of the assistant name; [exc_str e] is
    [str(e)].  A [heap] holds the [list] objects of the program by
    identity, so that two names of one list and a copy of a list are
    told apart.  A method is a function from the heap to an outcome and
    a heap: what a method wrote before it raised stays written. *)

Record Exception := mkException { exc_class : string; exc_str : string }.

Inductive outcome (A : Type) : Type :=
| Return (a : A)
| Raise (e : Exception).
Arguments Return {A} a.
Arguments Raise {A} e.

Definition loc := nat.
Abbreviation heap := (gmap loc (list string)).

Definition M (A : Type) : Type := heap -> outcome A * heap.

Definition ret {A} (a : A) : M A := fun h => (Return a, h).

Definition bind {A B} (m : M A) (k : A -> M B) : M B :=
  fun h =>
    match m h with
    | (Return a, h') => k a h'
    | (Raise e, h') => (Raise e, h')
    end.

Definition lift {A} (o : outcome A) : M A := fun h => (o, h).

(** [try: body except Exception as e: handler e] *)
Definition try_except {A} (body : M A) (handler : Exception -> M A) : M A :=
  fun h =>
    match body h with
    | (Return a, h') => (Return a, h')
    | (Raise e, h') => handler e h'
    end.

Declare Scope py_scope.
Delimit Scope py_scope with py.
Notation "'let!' x ':=' c1 'in' c2" := (bind c1 (fun x => c2))
  (at level 10, x name, c1 at level 100, c2 at level 200) : py_scope.
Notation "c1 ';;' c2" := (bind c1 (fun _ => c2))
  (at level 100, c2 at level 200, right associativity) : py_scope.
Open Scope py_scope.

(** [for x in l: body x] *)
Fixpoint for_each {A} (l : list A) (body : A -> M unit) : M unit :=
  match l with
  | [] => ret tt
  | x :: l' => body x ;; for_each l' body
  end.

(** [enumerate(l)] *)
Definition enumerate {A} (l : list A) : list (nat * A) :=
  zip (seq 0 (length l)) l.

(** [rule in lst] on the list object at [l] *)
Definition list_contains (l : loc) (x : string) : M bool :=
  fun h => (Return (bool_decide (x ∈ h !!! l)), h).

(** [lst.append(x)] *)
Definition list_append (l : loc) (x : string) : M unit :=
  fun h => (Return tt, <[l := (h !!! l) ++ [x]]> h).

(** [lst.copy()]: a new list object with the same elements *)
Definition list_copy (l : loc) : M loc :=
  fun h => let l' := fresh (dom h) in (Return l', <[l' := h !!! l]> h).

(** [l[i]] *)
Definition list_index (l : list string) (i : nat) : outcome string :=
  match l !! i with
  | Some x => Return x
  | None => Raise (mkException "IndexError" "list index out of range")
  end.

(** [s[-1]] *)
Definition str_index_last (s : string) : outcome ascii :=
  match Str.last_char s with
  | Some c => Return c
  | None => Raise (mkException "IndexError" "string index out of range")
  end.

(** ** Documents and the index *)

Inductive meta_value :=
| MInt (n : Z)
| MStr (s : string).

(** the text an f-string puts for a metadata value *)
Definition format_value (v : meta_value) : string :=
  match v with
  | MInt n => Str.of_int n
  | MStr s => s
  end.

Record Document := mkDocument {
  page_content : string;
  metadata : gmap string meta_value
}.

Record VectorStore := mkVectorStore { documents : list Document }.

(** [_load_rules_documents]: [load] is what [document_loader.load()]
    does, [split_documents] what the text splitter does. *)
Definition _load_rules_documents
    (load : outcome (list Document))
    (split_documents : list Document -> outcome (list Document))
  : list Document :=
  match load with
  | Raise _ => []
  | Return [] => []
  | Return all_pages =>
      match split_documents all_pages with
      | Return chunks => chunks
      | Raise _ => []
      end
  end.

Definition _prepare_vector_store (rules_chunks : list Document) : VectorStore :=
  mkVectorStore rules_chunks.

Definition placeholder_document : Document :=
  mkDocument
    "Goliath: A race of powerful humanoids known for their strength and size."
    {[ "page" := MInt 123 ]}.

(** The part of [_setup_assistant] that builds the index;
    [pdf_exists] is [os.path.exists(pdf_path)]. *)
Definition _setup_assistant
    (pdf_exists : bool)
    (load : outcome (list Document))
    (split_documents : list Document -> outcome (list Document))
  : VectorStore :=
  let rules_docs :=
    if negb pdf_exists
    then [placeholder_document]
    else _load_rules_documents load split_documents in
  _prepare_vector_store rules_docs.

Record DnDAssistant := mkDnDAssistant {
  rules_vector_store : VectorStore;
  _referenced_rules : loc
}.

(** [__init__]: the index is set up and [self._referenced_rules] is
    bound to a new empty list. *)
Definition __init__
    (pdf_exists : bool)
    (load : outcome (list Document))
    (split_documents : list Document -> outcome (list Document))
  : M DnDAssistant :=
  fun h =>
    let l := fresh (dom h) in
    (Return (mkDnDAssistant (_setup_assistant pdf_exists load split_documents) l),
     <[l := []]> h).

(** ** The agent

    One call of [self.agent.stream] either yields its events, or
    raises, or first calls the tool [search_rules] with a query of the
    model's choice and goes on from the observation it gets back. *)

Record Message := mkMessage { content : option string }.
Record Event := mkEvent { messages : option (list Message) }.

Inductive agent_run :=
| Yield (events : list Event)
| Fail (e : Exception)
| CallTool (query : string) (resume : string -> agent_run).

(** ** The index

    The embedding model is outside the program: [embed_query] is what
    embedding a query gives, a vector or an exception, and
    [similarity v d] orders the chunks by their closeness to the query
    vector [v]. *)

Section Index.

Context {Vec : Type}.
Variable embed_query : string -> outcome Vec.
Variable similarity : Vec -> Document -> Z.

(** [closer v d1 d2]: [d1] is at least as similar to [v] as [d2] *)
Definition closer (v : Vec) (d1 d2 : Document) : Prop :=
  (similarity v d2 <= similarity v d1)%Z.

#[export] Instance closer_dec v : RelDecision (closer v).
Proof. intros d1 d2. unfold closer. apply _. Defined.

(** Modelled from the spec: the search of the Embedding Index
    (section 4.3), which the program takes from the library class
    [InMemoryVectorStore]: the query is embedded and the [k] chunks
    that are most similar to it are returned, ranked by descending
    similarity, fewer only if the index holds fewer. *)
Definition in_memory_search
    (store : VectorStore) (query : string) (k : nat)
  : outcome (list Document) :=
  match embed_query query with
  | Raise e => Raise e
  | Return v => Return (take k (merge_sort (closer v) (documents store)))
  end.

End Index.

(** ** Example inputs *)

(** an embedding model that embeds every query *)
Definition constant_embedding (query : string) : outcome unit := Return tt.

(** an embedding model that is out of order *)
Definition failing_embedding (query : string) : outcome unit :=
  Raise (mkException "RuntimeError" "embedding model not loaded").

(** a similarity that prefers the longer chunks *)
Definition text_length (v : unit) (doc : Document) : Z :=
  Z.of_nat (String.length (page_content doc)).

(** the index searched with the model that embeds every query *)
Definition example_search : VectorStore -> string -> nat -> outcome (list Document) :=
  in_memory_search constant_embedding text_length.

(** the index searched with the model that is out of order *)
Definition failing_search : VectorStore -> string -> nat -> outcome (list Document) :=
  in_memory_search failing_embedding text_length.

(** the assistant made when the rulebook file is missing; its log is
    the list object 0 *)
Definition placeholder_assistant : DnDAssistant :=
  mkDnDAssistant (_setup_assistant false (Return []) Return) 0.

(** the assistant made when the rulebook file holds no page *)
Definition empty_assistant : DnDAssistant :=
  mkDnDAssistant (_setup_assistant true (Return []) Return) 0.

(** the heap after [__init__]: one empty list *)
Definition fresh_heap : heap := {[ 0 := [] ]}.

(** an agent that searches the rules once and then fails *)
Definition tool_then_fail : agent_run :=
  CallTool "Goliath"
    (fun _ => Fail (mkException "APIError" "rate limit reached")).

(** an agent that searches the rules once and answers with what it got *)
Definition tool_then_answer : agent_run :=
  CallTool "Goliath"
    (fun observation =>
       Yield [mkEvent (Some [mkMessage (Some "What is a Goliath?");
                             mkMessage (Some ("The Goliath is a race. " +:+ observation))])]).

(** ** The methods of [DnDAssistant] *)

Section Assistant.

(** [similarity_search] is the method of that name of the vector
    store, a class of a library: [similarity_search store query k] is
    what the call [store.similarity_search(query, k=k)] gives, a list
    of documents or an exception.  The methods are read for any such
    function. *)
Variable similarity_search : VectorStore -> string -> nat -> outcome (list Document).

Definition _add_referenced_rule (self : DnDAssistant) (rule : string) : M unit :=
  if Str.nonempty rule
  then
    let! present := list_contains (_referenced_rules self) rule in
    if negb present
    then list_append (_referenced_rules self) rule
    else ret tt
  else ret tt.

Definition keywords : list string :=
  ["race"; "class"; "spell"; "item"; "monster"; "rule"].

(** one element of the generator that [search_rules] joins *)
Definition render (doc : Document) : string :=
  "Source: Page "
  +:+ format_value (default (MStr "N/A") (metadata doc !! "page"))
  +:+ Str.newline +:+ page_content doc.

(** the body of the loop over [docs[:2]] *)
Definition note_topic (self : DnDAssistant) (doc : Document) : M unit :=
  let content_lower := Str.lower (page_content doc) in
  if existsb (fun keyword => Str.contains keyword content_lower) keywords
  then
    let words := take 3 (Str.split (page_content doc)) in
    match words with
    | [] => ret tt
    | _ =>
        let rule_name := Str.strip ".,:;" (Str.join " " words) in
        _add_referenced_rule self ("Found: " +:+ rule_name)
    end
  else ret tt.

(** the [try] block of [search_rules] *)
Definition search_rules_try (self : DnDAssistant) (query : string) : M string :=
  let! docs := lift (similarity_search (rules_vector_store self) query 4) in
  match docs with
  | [] => ret "No matching rules found in the rulebooks."
  | _ =>
      _add_referenced_rule self ("Search: " +:+ query) ;;
      for_each (take 2 docs) (note_topic self) ;;
      let content :=
        Str.join (Str.newline +:+ Str.newline) (map render docs) in
      ret content
  end.

Definition search_rules (self : DnDAssistant) (query : string) : M string :=
  try_except
    (search_rules_try self query)
    (fun e => ret ("Error searching rules: " +:+ exc_str e)).

(** [self.agent.stream(...)] collected in a list: the agent runs, and
    each of its tool calls is a call of [search_rules]. *)
Fixpoint stream (self : DnDAssistant) (agent : agent_run) : M (list Event) :=
  match agent with
  | Yield events => ret events
  | Fail e => lift (Raise e)
  | CallTool query resume =>
      let! observation := search_rules self query in
      stream self (resume observation)
  end.

(** the test on one word of the response *)
Definition capitalized (word : string) : bool :=
  Str.nonempty word
  && default false (Str.isupper <$> Str.first_char word)
  && (2 <? String.length word)
  && Str.isalpha word.

(** the body of the loop of [_extract_rules_from_response], at the
    word [word] of index [i] *)
Definition check_word
    (self : DnDAssistant) (words : list string) (entry : nat * string) : M unit :=
  let '(i, word) := entry in
  if capitalized word
  then
    if 0 <? i
    then
      let! previous := lift (list_index words (i - 1)) in
      let! c := lift (str_index_last previous) in
      if negb (Str.mem c ".!?")
      then _add_referenced_rule self ("Possible: " +:+ word)
      else ret tt
    else ret tt
  else ret tt.

Definition _extract_rules_from_response
    (self : DnDAssistant) (response query : string) : M unit :=
  let words := Str.split response in
  for_each (enumerate words) (check_word self words).

(** the text [send_message] takes from the events *)
Definition response_text_of (events : list Event) : string :=
  let fallback := "Sorry, I couldn't generate a response." in
  match last events with
  | None => fallback
  | Some last_event =>
      match messages last_event with
      | None | Some [] => fallback
      | Some msgs =>
          match last msgs with
          | None => fallback
          | Some last_message => default fallback (content last_message)
          end
      end
  end.

(** the [try] block of [send_message]; [agent] is what [self.agent]
    does on this call *)
Definition send_message_try
    (self : DnDAssistant) (agent : agent_run) (message : string) : M string :=
  _add_referenced_rule self ("Query: " +:+ message) ;;
  let! events := stream self agent in
  let response_text := response_text_of events in
  _extract_rules_from_response self response_text message ;;
  ret response_text.

Definition send_message
    (self : DnDAssistant) (agent : agent_run) (message : string) : M string :=
  try_except
    (send_message_try self agent message)
    (fun e => ret ("Error: " +:+ exc_str e)).

Definition get_referenced_rules (self : DnDAssistant) : M loc :=
  list_copy (_referenced_rules self).

(** ** Sequences of calls

    The calls a caller, the agent or the assistant itself can make on
    the assistant, and an in-place change a caller makes to a list it
    holds. *)

Inductive operation :=
| SendMessage (agent : agent_run) (message : string)
| SearchRules (query : string)
| ExtractRules (response query : string)
| AddReferencedRule (rule : string)
| GetReferencedRules.

(** the heap after one call; what the call returns is dropped *)
Definition perform (self : DnDAssistant) (op : operation) (h : heap) : heap :=
  match op with
  | SendMessage agent message => (send_message self agent message h).2
  | SearchRules query => (search_rules self query h).2
  | ExtractRules response query =>
      (_extract_rules_from_response self response query h).2
  | AddReferencedRule rule => (_add_referenced_rule self rule h).2
  | GetReferencedRules => (get_referenced_rules self h).2
  end.

(** the heap after the calls of [ops], first to last *)
Definition perform_all (self : DnDAssistant) (ops : list operation) (h : heap) : heap :=
  foldl (fun h op => perform self op h) h ops.

(** [lst.append(x)], [lst.clear()], [lst.sort()], ...: the list object
    at [l] is changed in place to [change] of its elements *)
Definition list_mutate (l : loc) (change : list string -> list string) : M unit :=
  fun h => (Return tt, <[l := change (h !!! l)]> h).

(** a session: two messages, a search, two reads of the log *)
Definition example_calls : list operation :=
  [ SendMessage tool_then_answer "What is a Goliath?";
    GetReferencedRules;
    SearchRules "Goliath";
    SendMessage tool_then_fail "What is a Goliath?";
    AddReferencedRule "Search: Goliath";
    ExtractRules "The Fireball spell deals damage." "What does Fireball do?";
    GetReferencedRules ].


(** ** The contents of the log

    What [_add_referenced_rule] does to the elements of the list, as a
    function on the elements. *)

Definition add_rule (rule : string) (log : list string) : list string :=
  if Str.nonempty rule && negb (bool_decide (rule ∈ log))
  then log ++ [rule]
  else log.

(** the rules of [rules] added one after the other, first to last *)
Definition add_rules (rules : list string) (log : list string) : list string :=
  foldl (fun log rule => add_rule rule log) log rules.

(** [h'] is [h] with rules added to the log of [self] and, maybe, with
    new objects: no object of [h] but the log differs in [h'] *)
Definition extends (self : DnDAssistant) (h h' : heap) : Prop :=
  (exists entries log,
      h !! _referenced_rules self = Some log
      /\ h' !! _referenced_rules self = Some (add_rules entries log))
  /\ (forall l, l <> _referenced_rules self -> is_Some (h !! l) -> h' !! l = h !! l).

(** every character of the string is a space *)
Fixpoint all_space (s : string) : bool :=
  match s with
  | EmptyString => true
  | String c s' => Str.isspace c && all_space s'
  end.

(** ** The entries of the log, in the words of the specification *)

(** the lowercased text of the chunk contains one of the keywords *)
Definition has_keyword (doc : Document) : bool :=
  existsb (fun keyword => Str.contains keyword (Str.lower (page_content doc)))
          keywords.

(** the first three words of the chunk, joined by single spaces, with
    the characters [.,:;] removed from both ends *)
Definition first_three_words (doc : Document) : string :=
  Str.strip ".,:;" (Str.join " " (take 3 (Str.split (page_content doc)))).

(** the ["Found: "] entries of a search that returned [docs] *)
Definition found_entries (docs : list Document) : list string :=
  map (fun doc => "Found: " +:+ first_three_words doc)
      (filter (fun doc => has_keyword doc = true) (take 2 docs)).

(** the word ends in [.], [!] or [?] *)
Definition ends_sentence (word : string) : bool :=
  match Str.last_char word with
  | Some c => Str.mem c ".!?"
  | None => false
  end.

(** an alphabetic word of length greater than 2 whose first character
    is uppercase *)
Definition rule_like (word : string) : bool :=
  Str.isalpha word
  && (2 <? String.length word)
  && default false (Str.isupper <$> Str.first_char word).

(** the word is rule-like and comes after a word that does not end a
    sentence; [previous] is the word before it, if there is one *)
Definition named (previous : option string) (word : string) : bool :=
  match previous with
  | Some p => rule_like word && negb (ends_sentence p)
  | None => false
  end.

(** the words of a text that are named, first to last *)
Fixpoint scan (previous : option string) (words : list string) : list string :=
  match words with
  | [] => []
  | word :: rest =>
      (if named previous word then [word] else []) ++ scan (Some word) rest
  end.

(** the ["Possible: "] entries of a response *)
Definition possible_entries (response : string) : list string :=
  map (fun word => "Possible: " +:+ word) (scan None (Str.split response)).

(** what one round of the loop of [search_rules] tries to add *)
Definition topic_entry (doc : Document) : list string :=
  if has_keyword doc then ["Found: " +:+ first_three_words doc] else [].

(** ** What a call adds, as a list of entries

    The string a call returns and the entries it tries to add, read off
    the methods without the heap. *)

(** the entry starts with one of the four labels of the assistant *)
Definition labelled (entry : string) : bool :=
  String.prefix "Query: " entry
  || String.prefix "Search: " entry
  || String.prefix "Found: " entry
  || String.prefix "Possible: " entry.

(** [search_rules]: the observation and the entries *)
Definition search_effect (self : DnDAssistant) (query : string)
  : string * list string :=
  match similarity_search (rules_vector_store self) query 4 with
  | Raise e => ("Error searching rules: " +:+ exc_str e, [])
  | Return [] => ("No matching rules found in the rulebooks.", [])
  | Return docs =>
      (Str.join (Str.newline +:+ Str.newline) (map render docs),
       ("Search: " +:+ query) :: found_entries docs)
  end.

(** [self.agent.stream]: the outcome and the entries of its tool calls *)
Fixpoint agent_effect (self : DnDAssistant) (agent : agent_run)
  : outcome (list Event) * list string :=
  match agent with
  | Yield events => (Return events, [])
  | Fail e => (Raise e, [])
  | CallTool query resume =>
      let '(observation, entries) := search_effect self query in
      let '(out, entries') := agent_effect self (resume observation) in
      (out, entries ++ entries')
  end.

(** [send_message]: the text and the entries *)
Definition message_effect
    (self : DnDAssistant) (agent : agent_run) (message : string)
  : string * list string :=
  match agent_effect self agent with
  | (Return events, entries) =>
      (response_text_of events,
       ("Query: " +:+ message)
         :: entries ++ possible_entries (response_text_of events))
  | (Raise e, entries) =>
      ("Error: " +:+ exc_str e, ("Query: " +:+ message) :: entries)
  end.

(** the entries a call tries to add; a read of the log adds none *)
Definition entries_of (self : DnDAssistant) (op : operation) : list string :=
  match op with
  | SendMessage agent message => (message_effect self agent message).2
  | SearchRules query => (search_effect self query).2
  | ExtractRules response query => possible_entries response
  | AddReferencedRule rule => [rule]
  | GetReferencedRules => []
  end.

(** the call is one of the public methods or the tool *)
Definition public (op : operation) : bool :=
  match op with
  | AddReferencedRule _ => false
  | _ => true
  end.

(** ** The chat window

    The classes [ChatWorker] and [DnDChatWindow] of
    [Project/dnd_chat_ui.py].  A widget is what the methods set and
    read of it: the text and the enabled flag of the input line, the
    enabled flag of the Send button, the blocks appended to the chat
    display, the labels of the items of the rules list, the message of
    the status bar.  [timestamp] is what [get_current_time()] returns
    at the call.  Literals with characters above 255 are written in
    UTF-8. *)

(** the double quote *)
Definition dquote : string := String (ascii_of_nat 34) "".

Fixpoint lstrip_spaces (s : string) : string :=
  match s with
  | EmptyString => EmptyString
  | String c s' => if Str.isspace c then lstrip_spaces s' else s
  end.

Fixpoint rstrip_spaces (s : string) : string :=
  match s with
  | EmptyString => EmptyString
  | String c s' =>
      match rstrip_spaces s' with
      | EmptyString => if Str.isspace c then EmptyString else String c EmptyString
      | r => String c r
      end
  end.

(** [s.strip()] *)
Definition strip_spaces (s : string) : string := rstrip_spaces (lstrip_spaces s).

(** [s.replace('\n', '<br>')] *)
Fixpoint replace_newlines (s : string) : string :=
  match s with
  | EmptyString => EmptyString
  | String c s' =>
      if decide (c = ascii_of_nat 10)
      then "<br>" +:+ replace_newlines s'
      else String c (replace_newlines s')
  end.

(** the elements of the list object at [l], as a [for] loop reads them *)
Definition list_elements (l : loc) : M (list string) :=
  fun h => (Return (h !!! l), h).

Inductive signal :=
| response_ready (response : string)
| error_occurred (error : string).

Record ChatWorker := mkChatWorker {
  worker_assistant : option DnDAssistant;
  worker_message : string
}.

(** [ChatWorker.run]: the signals it emits; [agent] is what the agent
    of the assistant does on this call *)
Definition ChatWorker_run (wk : ChatWorker) (agent : agent_run) : M (list signal) :=
  try_except
    (let! response :=
       match worker_assistant wk with
       | Some assistant => send_message assistant agent (worker_message wk)
       | None =>
           lift (Raise (mkException "AttributeError"
                          "'NoneType' object has no attribute 'send_message'"))
       end in
     ret [response_ready response])
    (fun e => ret [error_occurred (exc_str e)]).

Record DnDChatWindow := mkWindow {
  assistant : option DnDAssistant;
  is_processing : bool;
  worker : option ChatWorker;
  chat_display : list string;
  message_input_text : string;
  message_input_enabled : bool;
  send_button_enabled : bool;
  rules_list : list string;
  status_bar : string
}.

Definition set_assistant (w : DnDChatWindow) (a : option DnDAssistant) :=
  mkWindow a (is_processing w) (worker w) (chat_display w)
    (message_input_text w) (message_input_enabled w) (send_button_enabled w)
    (rules_list w) (status_bar w).

Definition set_is_processing (w : DnDChatWindow) (b : bool) :=
  mkWindow (assistant w) b (worker w) (chat_display w)
    (message_input_text w) (message_input_enabled w) (send_button_enabled w)
    (rules_list w) (status_bar w).

Definition set_worker (w : DnDChatWindow) (wk : option ChatWorker) :=
  mkWindow (assistant w) (is_processing w) wk (chat_display w)
    (message_input_text w) (message_input_enabled w) (send_button_enabled w)
    (rules_list w) (status_bar w).

Definition set_chat_display (w : DnDChatWindow) (blocks : list string) :=
  mkWindow (assistant w) (is_processing w) (worker w) blocks
    (message_input_text w) (message_input_enabled w) (send_button_enabled w)
    (rules_list w) (status_bar w).

Definition set_message_input_text (w : DnDChatWindow) (text : string) :=
  mkWindow (assistant w) (is_processing w) (worker w) (chat_display w)
    text (message_input_enabled w) (send_button_enabled w)
    (rules_list w) (status_bar w).

Definition set_rules_list (w : DnDChatWindow) (items : list string) :=
  mkWindow (assistant w) (is_processing w) (worker w) (chat_display w)
    (message_input_text w) (message_input_enabled w) (send_button_enabled w)
    items (status_bar w).

(** [self.statusBar().showMessage(message)] *)
Definition show_message (w : DnDChatWindow) (message : string) :=
  mkWindow (assistant w) (is_processing w) (worker w) (chat_display w)
    (message_input_text w) (message_input_enabled w) (send_button_enabled w)
    (rules_list w) message.

Definition set_input_enabled (w : DnDChatWindow) (enabled : bool) :=
  mkWindow (assistant w) (is_processing w) (worker w) (chat_display w)
    (message_input_text w) enabled enabled
    (rules_list w) (status_bar w).

(** the colour and the prefix that [add_message] chooses *)
Definition message_style (sender : string) (is_user is_error : bool)
  : string * string :=
  if is_error then ("#FF0000", "❌ ERROR")
  else if is_user then ("#2E8B57", "🧙 You")
  else ("#8B4513",
        if decide (sender = "System") then "⚙️ System" else "⚔️ Assistant").

(** the block that [add_message] appends *)
Definition formatted_message
    (timestamp sender message : string) (is_user is_error : bool) : string :=
  let '(color, prefix) := message_style sender is_user is_error in
  Str.newline
    +:+ "        <div style="
    +:+ dquote
    +:+ "margin: 10px 0; padding: 10px; border-radius: 10px; background-color: "
    +:+ (if is_user then "#E6F3E6" else "#F5F5DC")
    +:+ "; border-left: 5px solid "
    +:+ color
    +:+ ";"
    +:+ dquote
    +:+ ">"
    +:+ Str.newline
    +:+ "            <div style="
    +:+ dquote
    +:+ "font-weight: bold; color: "
    +:+ color
    +:+ "; margin-bottom: 5px;"
    +:+ dquote
    +:+ ">"
    +:+ Str.newline
    +:+ "                "
    +:+ prefix
    +:+ " • "
    +:+ timestamp
    +:+ Str.newline
    +:+ "            </div>"
    +:+ Str.newline
    +:+ "            <div style="
    +:+ dquote
    +:+ "color: #333;"
    +:+ dquote
    +:+ ">"
    +:+ Str.newline
    +:+ "                "
    +:+ replace_newlines message
    +:+ Str.newline
    +:+ "            </div>"
    +:+ Str.newline
    +:+ "        </div>"
    +:+ Str.newline
    +:+ "        ".

Definition add_message
    (timestamp sender message : string) (is_user is_error : bool)
    (w : DnDChatWindow) : DnDChatWindow :=
  set_chat_display w
    (chat_display w ++ [formatted_message timestamp sender message is_user is_error]).

Definition on_assistant_ready (w : DnDChatWindow) : DnDChatWindow :=
  set_input_enabled (show_message w "Assistant ready!") true.

Definition on_assistant_error (timestamp error : string) (w : DnDChatWindow)
  : DnDChatWindow :=
  let w := show_message w ("Error: " +:+ error) in
  let w := add_message timestamp "System"
             ("Failed to initialize assistant: " +:+ error) false true w in
  set_input_enabled w false.

(** [init_ui], as far as the widgets above go *)
Definition init_ui (timestamp : string) (w : DnDChatWindow) : DnDChatWindow :=
  let w := show_message w "Ready" in
  add_message timestamp "System"
    "Welcome to D&D 5e Assistant! How can I help you with your adventure today?"
    false false w.

(** [init_assistant] with its thread run to the end; [construct] is the
    call [DnDAssistant(...)] *)
Definition init_assistant
    (timestamp : string) (construct : M DnDAssistant) (w : DnDChatWindow)
  : heap -> DnDChatWindow * heap :=
  fun h =>
    let w := show_message w "Initializing D&D Assistant..." in
    let w := set_input_enabled w false in
    match construct h with
    | (Return a, h') => (on_assistant_ready (set_assistant w (Some a)), h')
    | (Raise e, h') => (on_assistant_error timestamp (exc_str e) w, h')
    end.

(** [DnDChatWindow.__init__]; the widgets are made enabled and empty *)
Definition window_init
    (timestamp timestamp' : string) (construct : M DnDAssistant)
  : heap -> DnDChatWindow * heap :=
  let w := mkWindow None false None [] "" true true [] "" in
  init_assistant timestamp' construct (init_ui timestamp w).

Definition update_rules_list (w : DnDChatWindow) : heap -> DnDChatWindow * heap :=
  fun h =>
    match assistant w with
    | Some a =>
        match (let! rules := get_referenced_rules a in list_elements rules) h with
        | (Return rules, h') =>
            (set_rules_list w (map (fun rule => "📖 " +:+ rule) rules), h')
        | (Raise _, h') => (w, h')
        end
    | None => (w, h)
    end.

Definition clear_rules_list (timestamp : string) (w : DnDChatWindow)
  : DnDChatWindow :=
  add_message timestamp "System" "Rules list cleared." false false
    (set_rules_list w []).

(** [DnDChatWindow.send_message] *)
Definition window_send_message (timestamp : string) (w : DnDChatWindow)
  : DnDChatWindow :=
  let message := strip_spaces (message_input_text w) in
  if negb (Str.nonempty message) || is_processing w
  then w
  else
    let w := set_message_input_text w "" in
    let w := set_is_processing w true in
    let w := set_input_enabled w false in
    let w := add_message timestamp "You" message true false w in
    let w := show_message w "Processing..." in
    set_worker w (Some (mkChatWorker (assistant w) message)).

Definition on_worker_finished (w : DnDChatWindow) : DnDChatWindow :=
  set_worker w None.

Definition on_response_received (timestamp response : string) (w : DnDChatWindow)
  : heap -> DnDChatWindow * heap :=
  fun h =>
    let w := add_message timestamp "Assistant" response false false w in
    let w := show_message w "Ready" in
    let '(w, h') := update_rules_list w h in
    let w := set_is_processing w false in
    (set_input_enabled w true, h').

Definition on_response_error (timestamp error : string) (w : DnDChatWindow)
  : DnDChatWindow :=
  let w := add_message timestamp "System" ("Error: " +:+ error) false true w in
  let w := show_message w ("Error: " +:+ error) in
  let w := set_is_processing w false in
  set_input_enabled w true.

(** the slot a signal of the worker is connected to *)
Definition deliver (timestamp : string) (s : signal) (state : DnDChatWindow * heap)
  : DnDChatWindow * heap :=
  match s with
  | response_ready response =>
      on_response_received timestamp response state.1 state.2
  | error_occurred error => (on_response_error timestamp error state.1, state.2)
  end.

(** What happens to the window: the user edits the input line, presses
    Enter or Send, presses Clear, or the worker runs to its end, its
    signals are delivered and [finished] after them.  A disabled input
    line is not edited and a disabled widget is not pressed. *)
Inductive ui_event :=
| TypeText (text : string)
| PressSend
| PressClear
| WorkerCompletes (agent : agent_run).

Definition ui_step
    (state : DnDChatWindow * heap) (step : string * ui_event)
  : DnDChatWindow * heap :=
  let '(w, h) := state in
  let '(timestamp, event) := step in
  match event with
  | TypeText text =>
      if message_input_enabled w then (set_message_input_text w text, h) else (w, h)
  | PressSend =>
      if message_input_enabled w || send_button_enabled w
      then (window_send_message timestamp w, h)
      else (w, h)
  | PressClear => (clear_rules_list timestamp w, h)
  | WorkerCompletes agent =>
      match worker w with
      | None => (w, h)
      | Some wk =>
          match ChatWorker_run wk agent h with
          | (Return signals, h') =>
              let '(w', h'') :=
                foldl (fun state s => deliver timestamp s state) (w, h') signals in
              (on_worker_finished w', h'')
          | (Raise _, h') => (on_worker_finished w, h')
          end
      end
  end.

(** the window after the events of [trace], first to last *)
Definition ui_run
    (trace : list (string * ui_event)) (state : DnDChatWindow * heap)
  : DnDChatWindow * heap :=
  foldl ui_step state trace.

(** the states the window is meant to be in: the input line and the
    Send button go together and are disabled while a request is
    processed; a request is processed exactly when there is a worker,
    which holds the assistant of the window and a message that is not
    empty; there is an assistant, with its log, whenever the input is
    enabled or a request is processed *)
Definition window_ok (state : DnDChatWindow * heap) : Prop :=
  let '(w, h) := state in
  message_input_enabled w = send_button_enabled w
  /\ (is_processing w = true -> message_input_enabled w = false)
  /\ (is_processing w = true <-> is_Some (worker w))
  /\ (forall wk, worker w = Some wk ->
        worker_assistant wk = assistant w /\ worker_message wk <> "")
  /\ (message_input_enabled w = true \/ is_processing w = true ->
      is_Some (assistant w))
  /\ (forall a, assistant w = Some a -> is_Some (h !! _referenced_rules a)).

(** a window that waits for the answer to "What is a Goliath?" *)
Definition busy_window : DnDChatWindow :=
  mkWindow (Some placeholder_assistant) true
    (Some (mkChatWorker (Some placeholder_assistant) "What is a Goliath?"))
    [formatted_message "10:00" "System"
       "Welcome to D&D 5e Assistant! How can I help you with your adventure today?"
       false false;
     formatted_message "10:02" "You" "What is a Goliath?" true false]
    "" false false [] "Processing...".

(** the user types a question and presses Enter *)
Definition ask_goliath : list (string * ui_event) :=
  [("10:02", TypeText "  What is a Goliath? "); ("10:02", PressSend)].

(** an agent that yields no event *)
Definition silent_agent : agent_run := Yield [].

(** ** The list of rules under additions *)

Lemma add_rules_nil log : add_rules [] log = log.
Proof. reflexivity. Qed.

Lemma add_rules_cons rule rules log :
  add_rules (rule :: rules) log = add_rules rules (add_rule rule log).
Proof. reflexivity. Qed.

Lemma add_rules_app rules1 rules2 log :
  add_rules (rules1 ++ rules2) log = add_rules rules2 (add_rules rules1 log).
Proof. unfold add_rules. apply foldl_app. Qed.

Lemma add_rule_NoDup rule log : NoDup log -> NoDup (add_rule rule log).
Proof.
  intros Hnd. unfold add_rule.
  destruct (Str.nonempty rule); simpl; [|done].
  case_bool_decide; simpl; [done|].
  apply NoDup_app. split_and!; [done| |apply NoDup_singleton].
  intros x Hx Hx'. apply list_elem_of_singleton in Hx'. by subst.
Qed.

Lemma add_rule_prefix rule log : log `prefix_of` add_rule rule log.
Proof.
  unfold add_rule.
  destruct (Str.nonempty rule && negb (bool_decide (rule ∈ log))); [|done].
  by apply prefix_app_r.
Qed.

Lemma add_rule_elem rule log : Str.nonempty rule = true -> rule ∈ add_rule rule log.
Proof.
  intros Hne. unfold add_rule. rewrite Hne. simpl.
  case_bool_decide; simpl; [done|].
  apply elem_of_app. right. by apply list_elem_of_singleton.
Qed.

Lemma add_rule_present rule log : rule ∈ log -> add_rule rule log = log.
Proof.
  intros Hin. unfold add_rule. rewrite bool_decide_eq_true_2 by done.
  by rewrite andb_false_r.
Qed.

Lemma add_rule_absent rule log :
  Str.nonempty rule = true -> rule ∉ log -> add_rule rule log = log ++ [rule].
Proof.
  intros Hne Hnin. unfold add_rule. rewrite Hne.
  by rewrite bool_decide_eq_false_2.
Qed.

Lemma add_rules_NoDup rules log : NoDup log -> NoDup (add_rules rules log).
Proof.
  revert log. induction rules as [|rule rules IH]; intros log Hnd; [done|].
  rewrite add_rules_cons. by apply IH, add_rule_NoDup.
Qed.

Lemma add_rules_prefix rules log : log `prefix_of` add_rules rules log.
Proof.
  revert log. induction rules as [|rule rules IH]; intros log; [done|].
  rewrite add_rules_cons. etrans; [apply add_rule_prefix|apply IH].
Qed.

Lemma add_rules_elem rule rules log : rule ∈ log -> rule ∈ add_rules rules log.
Proof.
  intros Hin. destruct (add_rules_prefix rules log) as [k ->].
  apply elem_of_app. by left.
Qed.

Lemma nonempty_append (s t : string) :
  Str.nonempty s = true -> Str.nonempty (s +:+ t) = true.
Proof. by destruct s. Qed.

(** ** Facts on [split] and on the keywords *)

Lemma append_nonempty (s : string) (c : ascii) :
  Str.nonempty (s +:+ String c "") = true.
Proof. by destruct s. Qed.

Lemma split_from_nonempty cur s :
  Forall (fun w => Str.nonempty w = true) (Str.split_from cur s).
Proof.
  revert cur. induction s as [|c s IH]; intros cur; simpl.
  - destruct (Str.nonempty cur) eqn:E; by repeat constructor.
  - destruct (Str.isspace c); [|apply IH].
    destruct (Str.nonempty cur) eqn:E; [constructor; [done|]|]; apply IH.
Qed.

Lemma split_nonempty s : Forall (fun w => Str.nonempty w = true) (Str.split s).
Proof. apply split_from_nonempty. Qed.

Lemma split_from_nil cur s :
  Str.split_from cur s = [] -> cur = "" /\ all_space s = true.
Proof.
  revert cur. induction s as [|c s IH]; intros cur; simpl.
  - by destruct cur.
  - destruct (Str.isspace c) eqn:Ec; simpl.
    + destruct (Str.nonempty cur) eqn:E; [done|].
      intros H. apply IH in H as [_ H]. by destruct cur.
    + intros H. apply IH in H as [H _].
      pose proof (append_nonempty cur c) as Hne. by rewrite H in Hne.
Qed.

Lemma isspace_lower_char c : Str.isspace c = true -> Str.lower_char c = c.
Proof.
  unfold Str.lower_char. destruct (Str.isupper c) eqn:Eu; [|done].
  revert Eu. destruct c as [[] [] [] [] [] [] [] []]; by vm_compute.
Qed.

Lemma all_space_lower s : all_space s = true -> Str.lower s = s.
Proof.
  induction s as [|c s IH]; simpl; [done|].
  intros [Hc Hs]%andb_prop. by rewrite isspace_lower_char, IH.
Qed.

Lemma prefix_cons_inv c k d t :
  String.prefix (String c k) (String d t) = true -> c = d.
Proof. simpl. by destruct (ascii_dec c d). Qed.

Lemma contains_all_space c k t :
  Str.isspace c = false -> all_space t = true ->
  Str.contains (String c k) t = false.
Proof.
  intros Hc. induction t as [|d t IH]; [done|].
  intros [Hd Ht]%andb_prop.
  change (Str.contains (String c k) (String d t))
    with (String.prefix (String c k) (String d t) || Str.contains (String c k) t).
  rewrite IH by done. rewrite orb_false_r.
  destruct (String.prefix (String c k) (String d t)) eqn:E; [|done].
  apply prefix_cons_inv in E. congruence.
Qed.

(** ** How the methods run *)

Section Runs.

Variable self : DnDAssistant.

Local Abbreviation rules := (_referenced_rules self).

Lemma heap_same (h : heap) log : h !! rules = Some log -> <[rules := log]> h = h.
Proof. apply insert_id. Qed.

Lemma add_rule_run rule (h : heap) log :
  h !! rules = Some log ->
  _add_referenced_rule self rule h = (Return tt, <[rules := add_rule rule log]> h).
Proof.
  intros Hlog. unfold _add_referenced_rule, add_rule.
  destruct (Str.nonempty rule); simpl; [|by rewrite heap_same].
  unfold bind, list_contains, list_append, ret.
  rewrite (lookup_total_correct _ _ _ Hlog).
  case_bool_decide; simpl; [by rewrite heap_same|].
  by rewrite (lookup_total_correct _ _ _ Hlog).
Qed.

(** a loop whose body only adds rules adds the rules of all its rounds *)
Lemma for_each_run {A} (body : A -> M unit) (entries : A -> list string) (l : list A) :
  (forall x (h : heap) log, x ∈ l -> h !! rules = Some log ->
     body x h = (Return tt, <[rules := add_rules (entries x) log]> h)) ->
  forall (h : heap) log, h !! rules = Some log ->
    for_each l body h
    = (Return tt, <[rules := add_rules (concat (map entries l)) log]> h).
Proof.
  induction l as [|x l IH]; intros Hbody h log Hlog; simpl.
  - unfold ret. by rewrite heap_same.
  - unfold bind. rewrite (Hbody x h log) by (by left || done).
    rewrite (IH (fun y h' log' Hy => Hbody y h' log' (list_elem_of_further _ _ _ Hy))
                _ (add_rules (entries x) log)) by apply lookup_insert_eq.
    by rewrite insert_insert_eq, add_rules_app.
Qed.

(** a chunk that contains a keyword has a first word *)
Lemma has_keyword_words doc :
  has_keyword doc = true -> take 3 (Str.split (page_content doc)) <> [].
Proof.
  intros Hkw Hnil. unfold has_keyword in Hkw.
  assert (Str.split (page_content doc) = []) as Hsplit
    by (by destruct (Str.split (page_content doc))).
  apply split_from_nil in Hsplit as [_ Hsp].
  rewrite (all_space_lower _ Hsp) in Hkw.
  unfold keywords in Hkw. simpl in Hkw.
  rewrite !contains_all_space in Hkw by done. done.
Qed.

Lemma note_topic_run doc (h : heap) log :
  h !! rules = Some log ->
  note_topic self doc h = (Return tt, <[rules := add_rules (topic_entry doc) log]> h).
Proof.
  intros Hlog. unfold note_topic, topic_entry.
  pose proof (has_keyword_words doc) as Hwords.
  fold (has_keyword doc). destruct (has_keyword doc); simpl.
  - destruct (take 3 (Str.split (page_content doc))) eqn:E; [by destruct Hwords|].
    rewrite (add_rule_run _ _ _ Hlog). unfold first_three_words. by rewrite E.
  - unfold ret. by rewrite heap_same.
Qed.

Lemma topic_entries docs : concat (map topic_entry docs)
  = map (fun doc => "Found: " +:+ first_three_words doc)
        (filter (fun doc => has_keyword doc = true) docs).
Proof.
  induction docs as [|doc docs IH]; [done|].
  simpl. rewrite IH, filter_cons. unfold topic_entry.
  destruct (has_keyword doc) eqn:E; by case_decide.
Qed.

Lemma search_rules_try_raise query e (h : heap) :
  similarity_search (rules_vector_store self) query 4 = Raise e ->
  search_rules_try self query h = (Raise e, h).
Proof.
  intros He. unfold search_rules_try, bind, lift. by rewrite He.
Qed.

Lemma search_rules_try_none query (h : heap) :
  similarity_search (rules_vector_store self) query 4 = Return [] ->
  search_rules_try self query h
  = (Return "No matching rules found in the rulebooks.", h).
Proof.
  intros Hs. unfold search_rules_try, bind, lift. by rewrite Hs.
Qed.

Lemma search_rules_try_some query docs (h : heap) log :
  similarity_search (rules_vector_store self) query 4 = Return docs ->
  docs <> [] ->
  h !! rules = Some log ->
  search_rules_try self query h
  = (Return (Str.join (Str.newline +:+ Str.newline) (map render docs)),
     <[rules := add_rules (("Search: " +:+ query) :: found_entries docs) log]> h).
Proof.
  intros Hs Hne Hlog. unfold search_rules_try, bind at 1, lift.
  rewrite Hs. destruct docs as [|doc docs]; [done|].
  unfold bind. rewrite (add_rule_run _ _ _ Hlog).
  rewrite (for_each_run (note_topic self) topic_entry _
             (fun x h' log' _ => note_topic_run x h' log') _
             (add_rule ("Search: " +:+ query) log))
    by apply lookup_insert_eq.
  unfold ret. by rewrite insert_insert_eq, topic_entries.
Qed.

(** [search_rules] returns a string and only adds to the log *)
Lemma search_rules_run query (h : heap) log :
  h !! rules = Some log ->
  exists observation entries,
    search_rules self query h
    = (Return observation, <[rules := add_rules entries log]> h).
Proof.
  intros Hlog. unfold search_rules, try_except.
  destruct (similarity_search (rules_vector_store self) query 4)
    as [[|doc docs]|e] eqn:Es.
  - rewrite (search_rules_try_none _ _ Es).
    eexists _, []. by rewrite add_rules_nil, heap_same.
  - rewrite (search_rules_try_some _ _ _ _ Es ltac:(done) Hlog). by eexists _, _.
  - rewrite (search_rules_try_raise _ _ _ Es). unfold ret.
    eexists _, []. by rewrite add_rules_nil, heap_same.
Qed.

(** the agent only adds to the log, whatever it does *)
Lemma stream_run agent : forall (h : heap) log,
  h !! rules = Some log ->
  exists out entries,
    stream self agent h = (out, <[rules := add_rules entries log]> h).
Proof.
  induction agent as [events|e|query resume IH]; intros h log Hlog; simpl.
  - exists (Return events), []. unfold ret. by rewrite add_rules_nil, heap_same.
  - exists (Raise e), []. unfold lift. by rewrite add_rules_nil, heap_same.
  - unfold bind.
    destruct (search_rules_run query h log Hlog) as (obs & entries1 & ->).
    destruct (IH obs (<[rules := add_rules entries1 log]> h) (add_rules entries1 log))
      as (out & entries2 & ->); [apply lookup_insert_eq|].
    exists out, (entries1 ++ entries2).
    by rewrite insert_insert_eq, add_rules_app.
Qed.

Lemma capitalized_rule_like word : capitalized word = rule_like word.
Proof.
  unfold capitalized, rule_like. destruct word as [|c word]; [done|].
  simpl. unfold id.
  destruct (Str.isupper c), (2 <? S (String.length word)),
    (Str.isalpha_char c && Str.all_alpha word); done.
Qed.

Lemma last_char_nonempty word :
  Str.nonempty word = true -> exists c, Str.last_char word = Some c.
Proof.
  induction word as [|c word IH]; [done|]. intros _.
  destruct word as [|d word]; [by exists c|].
  destruct IH as [c' Hc']; [done|]. exists c'. by rewrite <- Hc'.
Qed.

Lemma check_word_run pre word rest (h : heap) log :
  Forall (fun w => Str.nonempty w = true) pre ->
  h !! rules = Some log ->
  check_word self (pre ++ word :: rest) (length pre, word) h
  = (Return tt,
     <[rules := add_rules
                  (map (fun w => "Possible: " +:+ w)
                       (if named (last pre) word then [word] else []))
                  log]> h).
Proof.
  intros Hpre Hlog. unfold check_word, named. rewrite capitalized_rule_like.
  destruct (last pre) as [p|] eqn:Elast.
  - apply last_Some in Elast as [pre' ->].
    rewrite length_app, Nat.add_1_r, Nat.sub_1_r. cbn [Nat.ltb Nat.leb Nat.pred].
    unfold list_index. rewrite <- app_assoc. cbn [app].
    rewrite list_lookup_middle by done.
    rewrite Forall_app, Forall_singleton in Hpre. destruct Hpre as [_ Hp].
    destruct (last_char_nonempty p Hp) as [c Hc].
    unfold ends_sentence. rewrite Hc.
    destruct (rule_like word); cbn [andb]; [|unfold ret; by rewrite heap_same].
    unfold bind, lift, str_index_last. rewrite Hc.
    destruct (Str.mem c ".!?"); cbn [negb map]; [unfold ret; by rewrite heap_same|].
    by rewrite (add_rule_run _ _ _ Hlog).
  - apply last_None in Elast as ->. cbn [length Nat.ltb Nat.leb map].
    destruct (rule_like word); unfold ret; by rewrite heap_same.
Qed.

Lemma extract_loop rest : forall pre (h : heap) log,
  Forall (fun w => Str.nonempty w = true) pre ->
  Forall (fun w => Str.nonempty w = true) rest ->
  h !! rules = Some log ->
  for_each (zip (seq (length pre) (length rest)) rest)
           (check_word self (pre ++ rest)) h
  = (Return tt,
     <[rules := add_rules
                  (map (fun w => "Possible: " +:+ w) (scan (last pre) rest))
                  log]> h).
Proof.
  induction rest as [|word rest IH]; intros pre h log Hpre Hrest Hlog.
  - simpl. unfold ret. by rewrite heap_same.
  - apply Forall_cons in Hrest as [Hword Hrest].
    cbn [length seq zip zip_with for_each scan]. unfold bind.
    rewrite (check_word_run _ _ _ _ _ Hpre Hlog).
    specialize (IH (pre ++ [word])). rewrite <- app_assoc in IH. simpl in IH.
    rewrite length_app, Nat.add_1_r, last_snoc in IH.
    erewrite IH; [|by rewrite Forall_app, Forall_singleton|done
                  |apply lookup_insert_eq].
    by rewrite insert_insert_eq, map_app, add_rules_app.
Qed.

(** the heuristic never raises and adds the entries of the response *)
Lemma extract_run response query (h : heap) log :
  h !! rules = Some log ->
  _extract_rules_from_response self response query h
  = (Return tt, <[rules := add_rules (possible_entries response) log]> h).
Proof.
  intros Hlog. unfold _extract_rules_from_response, enumerate, possible_entries.
  apply (extract_loop (Str.split response) [] h log);
    [constructor|apply split_nonempty|done].
Qed.

Lemma send_message_try_run agent message (h : heap) log :
  h !! rules = Some log ->
  send_message_try self agent message h
  = match stream self agent (<[rules := add_rule ("Query: " +:+ message) log]> h) with
    | (Raise e, h2) => (Raise e, h2)
    | (Return events, h2) =>
        (Return (response_text_of events),
         <[rules := add_rules (possible_entries (response_text_of events))
                              (h2 !!! rules)]> h2)
    end.
Proof.
  intros Hlog. unfold send_message_try, bind at 1.
  rewrite (add_rule_run _ _ _ Hlog). unfold bind at 1.
  destruct (stream_run agent (<[rules := add_rule ("Query: " +:+ message) log]> h)
              (add_rule ("Query: " +:+ message) log))
    as (out & entries & ->); [apply lookup_insert_eq|].
  destruct out as [events|e]; [|done].
  unfold bind.
  rewrite (extract_run _ _ _ (add_rules entries (add_rule ("Query: " +:+ message) log)))
    by apply lookup_insert_eq.
  unfold ret. by rewrite lookup_total_insert_eq.
Qed.

Lemma send_message_run agent message (h : heap) log :
  h !! rules = Some log ->
  send_message self agent message h
  = match stream self agent (<[rules := add_rule ("Query: " +:+ message) log]> h) with
    | (Raise e, h2) => (Return ("Error: " +:+ exc_str e), h2)
    | (Return events, h2) =>
        (Return (response_text_of events),
         <[rules := add_rules (possible_entries (response_text_of events))
                              (h2 !!! rules)]> h2)
    end.
Proof.
  intros Hlog. unfold send_message, try_except.
  rewrite (send_message_try_run _ _ _ _ Hlog).
  by destruct (stream self agent _) as [[events|e] h2].
Qed.

(** [send_message] returns a string and only adds to the log *)
Lemma send_message_adds agent message (h : heap) log :
  h !! rules = Some log ->
  exists text entries,
    send_message self agent message h
    = (Return text, <[rules := add_rules entries log]> h).
Proof.
  intros Hlog. rewrite (send_message_run _ _ _ _ Hlog).
  destruct (stream_run agent (<[rules := add_rule ("Query: " +:+ message) log]> h)
              (add_rule ("Query: " +:+ message) log))
    as (out & entries & ->); [apply lookup_insert_eq|].
  rewrite insert_insert_eq.
  destruct out as [events|e].
  - rewrite lookup_total_insert_eq, insert_insert_eq.
    exists (response_text_of events),
      ((("Query: " +:+ message) :: entries)
         ++ possible_entries (response_text_of events)).
    by rewrite add_rules_app.
  - by exists ("Error: " +:+ exc_str e), (("Query: " +:+ message) :: entries).
Qed.

(** ** Sequences of calls keep the log growing at its end *)

Lemma extends_insert (h : heap) log entries :
  h !! rules = Some log ->
  extends self h (<[rules := add_rules entries log]> h).
Proof.
  intros Hlog. split.
  - exists entries, log. by rewrite lookup_insert_eq.
  - intros l Hl _. by rewrite lookup_insert_ne.
Qed.

Lemma extends_refl (h : heap) log : h !! rules = Some log -> extends self h h.
Proof.
  intros Hlog. split; [|done]. exists [], log. by rewrite add_rules_nil.
Qed.

Lemma extends_trans (h1 h2 h3 : heap) :
  extends self h1 h2 -> extends self h2 h3 -> extends self h1 h3.
Proof.
  intros [(e1 & log1 & H1 & H2) F1] [(e2 & log2 & H2' & H3) F2]. split.
  - exists (e1 ++ e2), log1. split; [done|].
    rewrite add_rules_app, H3. congruence.
  - intros l Hl Hsome. rewrite F2; [by apply F1|done|].
    by rewrite F1.
Qed.

Lemma get_referenced_rules_run (h : heap) log :
  h !! rules = Some log ->
  get_referenced_rules self h
  = (Return (fresh (dom h)), <[fresh (dom h) := log]> h)
  /\ h !! fresh (dom h) = None
  /\ fresh (dom h) <> rules.
Proof.
  intros Hlog. unfold get_referenced_rules, list_copy.
  rewrite (lookup_total_correct _ _ _ Hlog).
  assert (h !! fresh (dom h) = None) as Hfresh
    by (apply not_elem_of_dom, is_fresh).
  split_and!; [done..|]. intros Heq. congruence.
Qed.

Lemma perform_extends op (h : heap) log :
  h !! rules = Some log -> extends self h (perform self op h).
Proof.
  intros Hlog. destruct op as [agent message|query|response query|rule|]; cbn [perform].
  - destruct (send_message_adds agent message h log Hlog) as (text & entries & ->).
    by apply extends_insert.
  - destruct (search_rules_run query h log Hlog) as (obs & entries & ->).
    by apply extends_insert.
  - rewrite (extract_run _ _ _ _ Hlog). by apply extends_insert.
  - rewrite (add_rule_run _ _ _ Hlog).
    by apply (extends_insert h log [rule]).
  - destruct (get_referenced_rules_run h log Hlog) as (-> & Hfresh & Hne). cbn [snd].
    split.
    + exists [], log. by rewrite lookup_insert_ne.
    + intros l Hl Hsome. rewrite lookup_insert_ne; [done|].
      intros <-. rewrite Hfresh in Hsome. by destruct Hsome.
Qed.

Lemma perform_all_extends ops : forall (h : heap) log,
  h !! rules = Some log -> extends self h (perform_all self ops h).
Proof.
  induction ops as [|op ops IH]; intros h log Hlog.
  - by apply (extends_refl h log).
  - change (perform_all self (op :: ops) h)
      with (perform_all self ops (perform self op h)).
    pose proof (perform_extends op h log Hlog) as Hstep.
    destruct Hstep as [(entries & log0 & H0 & H1) F].
    eapply extends_trans; [split; [by exists entries, log0|exact F]|].
    by eapply IH.
Qed.

End Runs.

(** ** The properties of the specification *)

(** C1. [send_message] never raises: it returns a string on every
    message, whatever the agent does.  If the agent raises [e], the
    string is ["Error: "] followed by [str(e)]; if the agent yields its
    events, the string is the text taken from them, which is the
    content of the last message of the last event when there is one. *)
Theorem send_message_never_raises self agent message (h : heap) log :
  h !! _referenced_rules self = Some log ->
  exists text h',
    send_message self agent message h = (Return text, h')
    /\ (forall e h2,
          stream self agent
            (<[_referenced_rules self := add_rule ("Query: " +:+ message) log]> h)
          = (Raise e, h2) ->
          text = "Error: " +:+ exc_str e)
    /\ (forall events h2,
          stream self agent
            (<[_referenced_rules self := add_rule ("Query: " +:+ message) log]> h)
          = (Return events, h2) ->
          text = response_text_of events
          /\ (forall last_event msgs last_message final,
                last events = Some last_event ->
                messages last_event = Some msgs ->
                last msgs = Some last_message ->
                content last_message = Some final ->
                text = final)).
Proof.
  intros Hlog. rewrite (send_message_run _ _ _ _ _ Hlog).
  destruct (stream self agent _) as [[events|e] h2]; eexists _, _;
    (split; [reflexivity|]); split; try done.
  - intros ? ? [= <- <-]. split; [done|].
    intros last_event msgs last_message final Hev Hmsgs Hlast Hfinal.
    unfold response_text_of. rewrite Hev, Hmsgs.
    destruct msgs as [|m msgs]; [done|]. by rewrite Hlast, Hfinal.
  - by intros ? ? [= <- <-].
Qed.

(** C2. [search_rules] never raises: on every query it returns a
    string.  If its [try] block raises [e] at any step, the string is
    ["Error searching rules: "] followed by [str(e)]; this is so, in
    particular, when the search of the index raises [e], and then the
    log is as it was. *)
Theorem search_rules_never_raises self query (h : heap) :
  exists observation h',
    search_rules self query h = (Return observation, h')
    /\ (forall e h2,
          search_rules_try self query h = (Raise e, h2) ->
          observation = "Error searching rules: " +:+ exc_str e)
    /\ (forall e,
          similarity_search (rules_vector_store self) query 4 = Raise e ->
          observation = "Error searching rules: " +:+ exc_str e /\ h' = h).
Proof.
  unfold search_rules, try_except.
  destruct (search_rules_try self query h) as [[observation|e] h2] eqn:Etry.
  - exists observation, h2. split_and!; [done|done|].
    intros e He. unfold search_rules_try, bind, lift in Etry.
    by rewrite He in Etry.
  - eexists _, _. split_and!; [done|by intros ? ? [= <- <-]|].
    intros e' He. unfold search_rules_try, bind, lift in Etry.
    rewrite He in Etry. by injection Etry as <- <-.
Qed.

(** C3. After any sequence of calls that add to the log, made from a
    state whose log has no duplicates, the log has no duplicates; and
    the log at any moment of the sequence is a prefix of the log at any
    later moment: the entries stay in the order in which they were
    first put, none is moved or removed. *)
Theorem referenced_rules_no_duplicates self ops1 ops2 (h : heap) log :
  h !! _referenced_rules self = Some log ->
  NoDup log ->
  exists log1 log2,
    perform_all self ops1 h !! _referenced_rules self = Some log1
    /\ perform_all self (ops1 ++ ops2) h !! _referenced_rules self = Some log2
    /\ NoDup log1 /\ NoDup log2
    /\ log `prefix_of` log1 /\ log1 `prefix_of` log2.
Proof.
  intros Hlog Hnd.
  destruct (perform_all_extends self ops1 h log Hlog)
    as [(entries1 & log0 & H0 & H1) _].
  assert (log0 = log) as -> by congruence.
  destruct (perform_all_extends self ops2 _ _ H1)
    as [(entries2 & log0 & H0' & H2) _].
  assert (log0 = add_rules entries1 log) as -> by congruence.
  exists (add_rules entries1 log), (add_rules entries2 (add_rules entries1 log)).
  unfold perform_all in *. rewrite foldl_app.
  split_and!; [done|done| | |apply add_rules_prefix..].
  - by apply add_rules_NoDup.
  - by do 2 apply add_rules_NoDup.
Qed.

(** C4, as amended.  When the search of the index returns at least
    one chunk, [search_rules] adds ["Search: "] and the query to the
    log and then, for each of the first two returned chunks, if its
    lowercased text contains a keyword, ["Found: "] and the first three
    words of the chunk, joined by single spaces and with the characters
    [.,:;] removed from both ends; an entry that is in the log already
    is not added again.  When the search returns no chunk, the log is
    left as it was. *)
Theorem search_rules_log self query docs (h : heap) log :
  similarity_search (rules_vector_store self) query 4 = Return docs ->
  h !! _referenced_rules self = Some log ->
  (docs <> [] ->
   (search_rules self query h).2
   = <[_referenced_rules self :=
         add_rules (("Search: " +:+ query) :: found_entries docs) log]> h)
  /\ (docs = [] -> (search_rules self query h).2 = h).
Proof.
  intros Hs Hlog. unfold search_rules, try_except. split.
  - intros Hne. by rewrite (search_rules_try_some _ _ _ _ _ Hs Hne Hlog).
  - intros ->. by rewrite (search_rules_try_none _ _ _ Hs).
Qed.

(** C5. When the search of the index returns no chunk, [search_rules]
    returns the sentence "No matching rules found in the rulebooks." *)
Theorem search_rules_no_results self query (h : heap) :
  similarity_search (rules_vector_store self) query 4 = Return [] ->
  (search_rules self query h).1
  = Return "No matching rules found in the rulebooks.".
Proof.
  intros Hs. unfold search_rules, try_except.
  by rewrite (search_rules_try_none _ _ _ Hs).
Qed.

(** C7. On every response, [_extract_rules_from_response] returns
    without raising and adds to the log, in the order of the text and
    each unless it is there already, ["Possible: "] and the word for
    the whitespace-delimited words that are alphabetic, longer than 2,
    with an uppercase first character, and that follow a word not
    ending in [.], [!] or [?]; the first word of the text is never
    taken.  On "The Fireball spell deals damage." the one entry it adds
    is "Possible: Fireball"; "Possible: The" is not added. *)
Theorem extract_rules_from_response_entries self response query (h : heap) log :
  h !! _referenced_rules self = Some log ->
  _extract_rules_from_response self response query h
  = (Return tt,
     <[_referenced_rules self := add_rules (possible_entries response) log]> h)
  /\ (response = "The Fireball spell deals damage." ->
      possible_entries response = ["Possible: Fireball"]
      /\ "Possible: Fireball" ∈ add_rules (possible_entries response) log
      /\ ("Possible: The" ∉ log ->
          "Possible: The" ∉ add_rules (possible_entries response) log)).
Proof.
  intros Hlog. split; [by apply extract_run|].
  intros ->.
  assert (possible_entries "The Fireball spell deals damage."
          = ["Possible: Fireball"]) as -> by (by vm_compute).
  split_and!; [done|by apply add_rule_elem|].
  intros Hnot. rewrite add_rules_cons, add_rules_nil. unfold add_rule.
  destruct (_ && _); [|done].
  rewrite elem_of_app, list_elem_of_singleton. by intros [?|?].
Qed.

(** C8, as amended.  When the rulebook file does not exist, the index
    is built from one placeholder chunk, whose text is about the
    Goliath and whose page number is 123; the index is not empty. *)
Theorem missing_file_gives_placeholder_index load split_documents :
  documents (_setup_assistant false load split_documents) = [placeholder_document]
  /\ length (documents (_setup_assistant false load split_documents)) = 1
  /\ page_content placeholder_document
     = "Goliath: A race of powerful humanoids known for their strength and size."
  /\ metadata placeholder_document !! "page" = Some (MInt 123).
Proof. by split_and!. Qed.

(** C9. [get_referenced_rules] returns a new list object that holds
    the entries of the log at the time of the call; the call changes no
    object that was there, the log included.  Calls made on the
    assistant afterwards leave the returned list as it was, and a
    change made in place to the returned list leaves the log as it
    was. *)
Theorem get_referenced_rules_snapshot self (h : heap) log :
  h !! _referenced_rules self = Some log ->
  exists snapshot h',
    get_referenced_rules self h = (Return snapshot, h')
    /\ snapshot <> _referenced_rules self
    /\ h !! snapshot = None
    /\ h' !! snapshot = Some log
    /\ (forall l, l <> snapshot -> h' !! l = h !! l)
    /\ (forall ops, perform_all self ops h' !! snapshot = Some log)
    /\ (forall change,
          (list_mutate snapshot change h').2 !! _referenced_rules self
          = Some log).
Proof.
  intros Hlog.
  destruct (get_referenced_rules_run self h log Hlog) as (Hrun & Hfresh & Hne).
  exists (fresh (dom h)), (<[fresh (dom h) := log]> h).
  assert (<[fresh (dom h) := log]> h !! _referenced_rules self = Some log)
    as Hlog' by (by rewrite lookup_insert_ne).
  split_and!; [done|done|done|apply lookup_insert_eq| | |].
  - intros l Hl. by rewrite lookup_insert_ne.
  - intros ops.
    destruct (perform_all_extends self ops _ log Hlog') as [_ Hframe].
    rewrite Hframe; [apply lookup_insert_eq|done|].
    rewrite lookup_insert_eq. by eexists.
  - intros change. unfold list_mutate. cbn [snd].
    by rewrite lookup_insert_ne.
Qed.

(** C10. [send_message] adds ["Query: "] and the message to the log
    before it runs the agent, and when the agent raises, [send_message]
    returns the ["Error: "] string and the heap is the one the agent
    left: the entry of the query, and every entry that was in the log
    when the agent started, is still there. *)
Theorem send_message_keeps_query_on_error self agent message (h : heap) log e h2 :
  h !! _referenced_rules self = Some log ->
  stream self agent
    (<[_referenced_rules self := add_rule ("Query: " +:+ message) log]> h)
  = (Raise e, h2) ->
  _add_referenced_rule self ("Query: " +:+ message) h
  = (Return tt,
     <[_referenced_rules self := add_rule ("Query: " +:+ message) log]> h)
  /\ ("Query: " +:+ message) ∈ add_rule ("Query: " +:+ message) log
  /\ send_message self agent message h
     = (Return ("Error: " +:+ exc_str e), h2)
  /\ exists log2,
       h2 !! _referenced_rules self = Some log2
       /\ add_rule ("Query: " +:+ message) log `prefix_of` log2
       /\ ("Query: " +:+ message) ∈ log2.
Proof.
  intros Hlog Hstream.
  assert (("Query: " +:+ message) ∈ add_rule ("Query: " +:+ message) log)
    as Hin by (by apply add_rule_elem).
  split_and!; [by apply add_rule_run|done| |].
  - by rewrite (send_message_run _ _ _ _ _ Hlog), Hstream.
  - destruct (stream_run self agent
                (<[_referenced_rules self := add_rule ("Query: " +:+ message) log]> h)
                (add_rule ("Query: " +:+ message) log))
      as (out & entries & Hrun); [apply lookup_insert_eq|].
    rewrite Hstream in Hrun. injection Hrun as _ ->.
    eexists. rewrite lookup_insert_eq. split_and!;
      [done|apply add_rules_prefix|by apply add_rules_elem].
Qed.

(** ** More on the list of rules *)

Lemma add_rules_covers entries : forall log entry,
  entry ∈ entries -> Str.nonempty entry = true -> entry ∈ add_rules entries log.
Proof.
  induction entries as [|e entries IH]; intros log entry Hin Hne.
  - by apply elem_of_nil in Hin.
  - rewrite add_rules_cons. apply elem_of_cons in Hin as [->|Hin].
    + by apply add_rules_elem, add_rule_elem.
    + by apply IH.
Qed.

Lemma add_rules_known entries : forall log,
  (forall entry, entry ∈ entries -> Str.nonempty entry = true -> entry ∈ log) ->
  add_rules entries log = log.
Proof.
  induction entries as [|e entries IH]; intros log Hknown; [done|].
  rewrite add_rules_cons.
  assert (add_rule e log = log) as ->.
  { unfold add_rule. destruct (Str.nonempty e) eqn:Ee; [|done].
    rewrite bool_decide_eq_true_2; [done|]. apply Hknown; [by left|done]. }
  apply IH. intros entry Hin. apply Hknown. by right.
Qed.

Lemma add_rules_twice entries log :
  add_rules entries (add_rules entries log) = add_rules entries log.
Proof.
  apply add_rules_known. intros entry Hin Hne. by apply add_rules_covers.
Qed.

(** what is added is a duplicate-free part of the entries, in their order *)
Lemma add_rules_new entries : forall log,
  exists new,
    add_rules entries log = log ++ new
    /\ new `sublist_of` entries
    /\ Forall (fun entry => Str.nonempty entry = true /\ entry ∉ log) new.
Proof.
  induction entries as [|e entries IH]; intros log.
  - exists []. rewrite add_rules_nil, app_nil_r. by split_and!.
  - rewrite add_rules_cons. destruct (IH (add_rule e log)) as (new & -> & Hsub & Hall).
    unfold add_rule in *.
    destruct (Str.nonempty e && negb (bool_decide (e ∈ log))) eqn:E.
    + apply andb_prop in E as [Hne Hnin]. apply negb_true_iff in Hnin.
      apply bool_decide_eq_false in Hnin.
      exists (e :: new). rewrite <- app_assoc. split_and!; [done|by constructor|].
      constructor; [done|].
      eapply Forall_impl; [exact Hall|]. intros x [? Hx]. split; [done|].
      intros ?. apply Hx, elem_of_app. by left.
    + exists new. split_and!; [done|by constructor|done].
Qed.

Lemma add_rules_length entries log :
  length (add_rules entries log) <= length log + length entries.
Proof.
  destruct (add_rules_new entries log) as (new & -> & Hsub & _).
  rewrite length_app. apply sublist_length in Hsub. lia.
Qed.

Lemma add_rules_Forall (P : string -> Prop) entries log :
  Forall P log -> Forall P entries -> Forall P (add_rules entries log).
Proof.
  intros Hlog Hentries.
  destruct (add_rules_new entries log) as (new & -> & Hsub & _).
  apply Forall_app. split; [done|].
  rewrite Forall_forall in Hentries |- *. intros x Hx.
  apply Hentries. apply sublist_submseteq in Hsub.
  by eapply elem_of_submseteq.
Qed.

Lemma add_rules_nonempty entries log :
  Forall (fun entry => Str.nonempty entry = true) log ->
  Forall (fun entry => Str.nonempty entry = true) (add_rules entries log).
Proof.
  intros Hlog. destruct (add_rules_new entries log) as (new & -> & _ & Hall).
  apply Forall_app. split; [done|].
  eapply Forall_impl; [exact Hall|]. by intros x [? _].
Qed.

(** ** The methods and their entries *)

Section Effects.

Variable self : DnDAssistant.

Local Abbreviation rules := (_referenced_rules self).

Lemma search_rules_effect query (h : heap) log :
  h !! rules = Some log ->
  search_rules self query h
  = (Return (search_effect self query).1,
     <[rules := add_rules (search_effect self query).2 log]> h).
Proof.
  intros Hlog. unfold search_rules, try_except, search_effect.
  destruct (similarity_search (rules_vector_store self) query 4)
    as [[|doc docs]|e] eqn:Es.
  - rewrite (search_rules_try_none _ _ _ Es). cbn [fst snd].
    by rewrite add_rules_nil, (heap_same _ _ _ Hlog).
  - by rewrite (search_rules_try_some _ _ _ _ _ Es ltac:(done) Hlog).
  - rewrite (search_rules_try_raise _ _ _ _ Es). unfold ret. cbn [fst snd].
    by rewrite add_rules_nil, (heap_same _ _ _ Hlog).
Qed.

Lemma stream_effect agent : forall (h : heap) log,
  h !! rules = Some log ->
  stream self agent h
  = ((agent_effect self agent).1,
     <[rules := add_rules (agent_effect self agent).2 log]> h).
Proof.
  induction agent as [events|e|query resume IH]; intros h log Hlog.
  - cbn. unfold ret. by rewrite (heap_same _ _ _ Hlog).
  - cbn. unfold lift. by rewrite (heap_same _ _ _ Hlog).
  - cbn [stream agent_effect]. unfold bind.
    rewrite (search_rules_effect _ _ _ Hlog).
    destruct (search_effect self query) as [observation entries]. cbn [fst snd].
    rewrite (IH observation _ (add_rules entries log)) by apply lookup_insert_eq.
    destruct (agent_effect self (resume observation)) as [out entries'].
    cbn [fst snd]. by rewrite insert_insert_eq, add_rules_app.
Qed.

Lemma send_message_effect agent message (h : heap) log :
  h !! rules = Some log ->
  send_message self agent message h
  = (Return (message_effect self agent message).1,
     <[rules := add_rules (message_effect self agent message).2 log]> h).
Proof.
  intros Hlog. rewrite (send_message_run _ _ _ _ _ Hlog).
  rewrite (stream_effect agent _ (add_rule ("Query: " +:+ message) log))
    by apply lookup_insert_eq.
  unfold message_effect.
  destruct (agent_effect self agent) as [[events|e] entries]; cbn [fst snd].
  - rewrite lookup_total_insert_eq, !insert_insert_eq.
    by rewrite add_rules_cons, add_rules_app.
  - by rewrite insert_insert_eq.
Qed.

(** the heap after a call that is not a read of the log *)
Lemma perform_effect op (h : heap) log :
  h !! rules = Some log ->
  op <> GetReferencedRules ->
  perform self op h = <[rules := add_rules (entries_of self op) log]> h.
Proof.
  intros Hlog Hop.
  destruct op as [agent message|query|response query|rule|]; cbn [perform entries_of].
  - by rewrite (send_message_effect _ _ _ _ Hlog).
  - by rewrite (search_rules_effect _ _ _ Hlog).
  - by rewrite (extract_run _ _ _ _ _ Hlog).
  - by rewrite (add_rule_run _ _ _ _ Hlog).
  - done.
Qed.

End Effects.

(** ** Sessions and their entries *)

Section Sessions.

Variable self : DnDAssistant.

Local Abbreviation rules := (_referenced_rules self).

#[local] Instance read_dec (op : operation) : Decision (op = GetReferencedRules).
Proof. destruct op; (by left) || (by right). Defined.

Lemma perform_log op (h : heap) log :
  h !! rules = Some log ->
  perform self op h !! rules = Some (add_rules (entries_of self op) log).
Proof.
  intros Hlog. destruct (decide (op = GetReferencedRules)) as [->|Hop].
  - cbn [perform entries_of].
    destruct (get_referenced_rules_run self h log Hlog) as (-> & _ & Hne).
    cbn [snd]. by rewrite lookup_insert_ne.
  - rewrite (perform_effect _ _ _ _ Hlog Hop). apply lookup_insert_eq.
Qed.

Lemma perform_all_log ops : forall (h : heap) log,
  h !! rules = Some log ->
  perform_all self ops h !! rules
  = Some (add_rules (concat (map (entries_of self) ops)) log).
Proof.
  induction ops as [|op ops IH]; intros h log Hlog; [done|].
  change (perform_all self (op :: ops) h)
    with (perform_all self ops (perform self op h)).
  rewrite (IH _ _ (perform_log op h log Hlog)). cbn [map concat].
  by rewrite add_rules_app.
Qed.

Lemma prefix_append (p s : string) : String.prefix p (p +:+ s) = true.
Proof.
  induction p as [|c p IH]; [by destruct s|].
  change (String c p +:+ s) with (String c (p +:+ s)). cbn [String.prefix].
  by destruct (ascii_dec c c).
Qed.

Lemma prefix_append_more (p s t : string) :
  String.prefix p ((p +:+ s) +:+ t) = true.
Proof.
  induction p as [|c p IH]; [by destruct (("" +:+ s) +:+ t)|].
  change ((String c p +:+ s) +:+ t) with (String c ((p +:+ s) +:+ t)).
  cbn [String.prefix]. by destruct (ascii_dec c c).
Qed.

Lemma labelled_query message : labelled ("Query: " +:+ message) = true.
Proof. unfold labelled. by rewrite prefix_append. Qed.

Lemma labelled_search query : labelled ("Search: " +:+ query) = true.
Proof. unfold labelled. by rewrite prefix_append, orb_true_r. Qed.

Lemma labelled_found name : labelled ("Found: " +:+ name) = true.
Proof. unfold labelled. by rewrite prefix_append, !orb_true_r. Qed.

Lemma labelled_possible word : labelled ("Possible: " +:+ word) = true.
Proof. unfold labelled. by rewrite prefix_append, !orb_true_r. Qed.

Lemma found_entries_labelled docs :
  Forall (fun entry => labelled entry = true) (found_entries docs).
Proof.
  unfold found_entries. apply List.Forall_map, Forall_forall.
  intros doc _. apply labelled_found.
Qed.

Lemma found_entries_length docs : length (found_entries docs) <= 2.
Proof.
  unfold found_entries. rewrite length_map.
  etrans; [apply length_filter|]. rewrite length_take. lia.
Qed.

Lemma possible_entries_labelled response :
  Forall (fun entry => labelled entry = true) (possible_entries response).
Proof.
  unfold possible_entries. apply List.Forall_map, Forall_forall.
  intros word _. apply labelled_possible.
Qed.

Lemma search_effect_labelled query :
  Forall (fun entry => labelled entry = true) (search_effect self query).2.
Proof.
  unfold search_effect.
  destruct (similarity_search (rules_vector_store self) query 4)
    as [[|doc docs]|e]; cbn [snd]; [done| |done].
  constructor; [apply labelled_search|apply found_entries_labelled].
Qed.

Lemma agent_effect_labelled agent :
  Forall (fun entry => labelled entry = true) (agent_effect self agent).2.
Proof.
  induction agent as [events|e|query resume IH]; cbn [agent_effect]; [done..|].
  pose proof (search_effect_labelled query) as Hs.
  destruct (search_effect self query) as [observation entries].
  specialize (IH observation).
  destruct (agent_effect self (resume observation)) as [out entries'].
  cbn [snd] in *. by apply Forall_app.
Qed.

Lemma entries_of_labelled op :
  public op = true ->
  Forall (fun entry => labelled entry = true) (entries_of self op).
Proof.
  destruct op as [agent message|query|response query|rule|];
    cbn [public entries_of]; intros Hop; [| | |done|done].
  - unfold message_effect. pose proof (agent_effect_labelled agent) as Ha.
    destruct (agent_effect self agent) as [[events|e] entries]; cbn [snd] in *.
    + constructor; [apply labelled_query|].
      apply Forall_app. split; [done|apply possible_entries_labelled].
    + constructor; [apply labelled_query|done].
  - apply search_effect_labelled.
  - apply possible_entries_labelled.
Qed.

(** X1. The log after any sequence of calls is the log before it with
    the entries of the calls added one after the other, in the order of
    the calls, each unless it is empty or in the log already; the
    entries of a call do not depend on the heap, and a read of the log
    adds none. *)
Theorem session_log ops (h : heap) log :
  h !! _referenced_rules self = Some log ->
  perform_all self ops h !! _referenced_rules self
  = Some (add_rules (concat (map (entries_of self) ops)) log)
  /\ perform_all self (filter (fun op => op <> GetReferencedRules) ops) h
       !! _referenced_rules self
     = perform_all self ops h !! _referenced_rules self.
Proof.
  intros Hlog. split; [by apply perform_all_log|].
  rewrite !(perform_all_log _ _ _ Hlog). do 2 f_equal.
  induction ops as [|op ops IH]; [done|].
  rewrite filter_cons. case_decide as Hop; cbn [map concat].
  - by rewrite IH.
  - subst op. by rewrite IH.
Qed.

(** X2. A call of [send_message], [search_rules],
    [_extract_rules_from_response] or [_add_referenced_rule] made a
    second time with the same arguments (and, for [send_message], an
    agent that does the same) changes nothing: the heap after the two
    calls is the heap after the first. *)
Theorem repeated_call_changes_nothing op (h : heap) log :
  h !! _referenced_rules self = Some log ->
  op <> GetReferencedRules ->
  perform self op (perform self op h) = perform self op h.
Proof.
  intros Hlog Hop.
  rewrite (perform_effect _ _ _ _ (perform_log op h log Hlog) Hop).
  rewrite (perform_effect _ op h log Hlog Hop).
  by rewrite insert_insert_eq, add_rules_twice.
Qed.

(** X3. The log never holds the empty string: if it holds none before
    a sequence of calls, it holds none after it. *)
Theorem log_has_no_empty_entry ops (h : heap) log :
  h !! _referenced_rules self = Some log ->
  Forall (fun entry => entry <> "") log ->
  exists log',
    perform_all self ops h !! _referenced_rules self = Some log'
    /\ Forall (fun entry => entry <> "") log'.
Proof.
  intros Hlog Hne. eexists. split; [by apply perform_all_log|].
  assert (forall l, Forall (fun entry => entry <> "") l
                    <-> Forall (fun entry => Str.nonempty entry = true) l) as Hiff.
  { intros l. apply Forall_proper; [|done]. intros [|c entry]; by split. }
  apply Hiff, add_rules_nonempty, Hiff, Hne.
Qed.

(** X4. Every entry that [send_message], [search_rules],
    [_extract_rules_from_response] and [get_referenced_rules] leave in
    the log starts with "Query: ", "Search: ", "Found: " or
    "Possible: ": if the entries of the log do before a sequence of
    such calls, they do after it. *)
Theorem log_entries_are_labelled ops (h : heap) log :
  h !! _referenced_rules self = Some log ->
  Forall (fun entry => labelled entry = true) log ->
  Forall (fun op => public op = true) ops ->
  exists log',
    perform_all self ops h !! _referenced_rules self = Some log'
    /\ Forall (fun entry =>
                 String.prefix "Query: " entry = true
                 \/ String.prefix "Search: " entry = true
                 \/ String.prefix "Found: " entry = true
                 \/ String.prefix "Possible: " entry = true) log'.
Proof.
  intros Hlog Hlab Hops. eexists. split; [by apply perform_all_log|].
  eapply Forall_impl.
  - apply add_rules_Forall; [exact Hlab|].
    apply Forall_concat, List.Forall_map.
    eapply Forall_impl; [exact Hops|]. intros op. apply entries_of_labelled.
  - intros entry. unfold labelled. rewrite !orb_true_iff. tauto.
Qed.

(** X5. What [search_rules] returns tells its three outcomes apart:
    the string starts with "Source: Page " exactly when the search of
    the index returned at least one chunk; otherwise it is the sentence
    "No matching rules found in the rulebooks." or it starts with
    "Error searching rules: ". *)
Theorem search_rules_observation_shape query (h : heap) log :
  h !! _referenced_rules self = Some log ->
  exists observation,
    (search_rules self query h).1 = Return observation
    /\ (String.prefix "Source: Page " observation = true
        <-> exists doc docs,
              similarity_search (rules_vector_store self) query 4
              = Return (doc :: docs))
    /\ (String.prefix "Source: Page " observation = true
        \/ observation = "No matching rules found in the rulebooks."
        \/ String.prefix "Error searching rules: " observation = true).
Proof.
  intros Hlog. rewrite (search_rules_effect _ _ _ _ Hlog). cbn [fst].
  eexists. split; [done|]. unfold search_effect.
  destruct (similarity_search (rules_vector_store self) query 4)
    as [[|doc docs]|e]; cbn [fst].
  - split; [|by right; left]. split; [done|]. by intros (? & ? & ?).
  - assert (String.prefix "Source: Page "
              (Str.join (Str.newline +:+ Str.newline) (map render (doc :: docs)))
            = true) as Hp.
    { unfold Str.join. cbn [map String.concat]. unfold render.
      destruct (map _ docs); [apply prefix_append|apply prefix_append_more]. }
    split; [|by left]. split; [by exists doc, docs|done].
  - split; [|right; right; apply prefix_append].
    split; [by vm_compute|]. by intros (? & ? & ?).
Qed.

(** X6. One call of [search_rules] adds at most three entries to the
    log, each starting with "Search: " or "Found: " and none of them
    in the log before. *)
Theorem search_rules_adds_at_most_three query (h : heap) log :
  h !! _referenced_rules self = Some log ->
  exists new,
    (search_rules self query h).2 !! _referenced_rules self = Some (log ++ new)
    /\ length new <= 3
    /\ Forall (fun entry =>
                 (entry ∉ log)
                 /\ (String.prefix "Search: " entry = true
                     \/ String.prefix "Found: " entry = true)) new.
Proof.
  intros Hlog. rewrite (search_rules_effect _ _ _ _ Hlog). cbn [snd].
  rewrite lookup_insert_eq.
  destruct (add_rules_new (search_effect self query).2 log)
    as (new & -> & Hsub & Hall).
  exists new. split; [done|].
  assert (length (search_effect self query).2 <= 3
          /\ Forall (fun entry => String.prefix "Search: " entry = true
                                  \/ String.prefix "Found: " entry = true)
                    (search_effect self query).2) as [Hlen Hshape].
  { unfold search_effect.
    destruct (similarity_search (rules_vector_store self) query 4)
      as [[|doc docs]|e]; cbn [snd length];
      [(split; [lia|done])| |(split; [lia|done])].
    pose proof (found_entries_length (doc :: docs)). split; [lia|].
    constructor; [left; apply prefix_append|].
    unfold found_entries. apply List.Forall_map, Forall_forall.
    intros d _. right. apply prefix_append. }
  split; [apply sublist_length in Hsub; lia|].
  rewrite Forall_forall in Hall, Hshape |- *. intros entry Hin. split.
  - by apply Hall.
  - apply Hshape. apply sublist_submseteq in Hsub. by eapply elem_of_submseteq.
Qed.

(** X7. A message that is new to the log is entered right at the end
    of the log as it was, before anything that the tool calls of the
    agent or the heuristic add; a message sent before keeps the place
    of its first entry. *)
Theorem send_message_logs_query_first agent message (h : heap) log :
  h !! _referenced_rules self = Some log ->
  exists log',
    (send_message self agent message h).2 !! _referenced_rules self = Some log'
    /\ (("Query: " +:+ message) ∉ log ->
        exists rest, log' = log ++ ("Query: " +:+ message) :: rest)
    /\ (("Query: " +:+ message) ∈ log -> log `prefix_of` log').
Proof.
  intros Hlog. rewrite (send_message_effect _ _ _ _ _ Hlog). cbn [snd].
  rewrite lookup_insert_eq. eexists. split; [done|].
  assert (exists entries,
             (message_effect self agent message).2
             = ("Query: " +:+ message) :: entries) as [entries ->].
  { unfold message_effect.
    destruct (agent_effect self agent) as [[events|e] entries]; by eexists. }
  rewrite add_rules_cons. split.
  - intros Hnew. rewrite add_rule_absent by done.
    destruct (add_rules_prefix entries (log ++ ["Query: " +:+ message]))
      as [rest ->].
    exists rest. by rewrite <- app_assoc.
  - intros Hold. rewrite add_rule_present by done. apply add_rules_prefix.
Qed.

(** X8. When the agent yields no event, or a last event without
    messages, or a last message without content, [send_message] returns
    "Sorry, I couldn't generate a response." and the heuristic adds
    nothing: the heap is the one the agent left. *)
Theorem send_message_without_answer agent message events (h h2 : heap) log :
  h !! _referenced_rules self = Some log ->
  stream self agent
    (<[_referenced_rules self := add_rule ("Query: " +:+ message) log]> h)
  = (Return events, h2) ->
  (events = []
   \/ (exists last_event,
          last events = Some last_event
          /\ (messages last_event = None \/ messages last_event = Some []))
   \/ (exists last_event msgs last_message,
          last events = Some last_event
          /\ messages last_event = Some msgs
          /\ last msgs = Some last_message
          /\ content last_message = None)) ->
  send_message self agent message h
  = (Return "Sorry, I couldn't generate a response.", h2).
Proof.
  intros Hlog Hstream Hnone.
  rewrite (send_message_run _ _ _ _ _ Hlog), Hstream.
  assert (response_text_of events = "Sorry, I couldn't generate a response.")
    as ->.
  { unfold response_text_of.
    destruct Hnone as [->|[(ev & -> & [->| ->])|(ev & msgs & m & -> & -> & Hm & Hc)]];
      [done..|].
    destruct msgs as [|m0 msgs]; [done|]. by rewrite Hm, Hc. }
  destruct (stream_run self agent
              (<[_referenced_rules self := add_rule ("Query: " +:+ message) log]> h)
              (add_rule ("Query: " +:+ message) log))
    as (out & entries & Hrun); [apply lookup_insert_eq|].
  rewrite Hstream in Hrun. injection Hrun as _ ->.
  rewrite lookup_total_insert_eq, insert_insert_eq.
  assert (possible_entries "Sorry, I couldn't generate a response." = [])
    as -> by (by vm_compute).
  by rewrite add_rules_nil.
Qed.

Lemma scan_sublist words : forall previous,
  scan previous words `sublist_of` words.
Proof.
  induction words as [|word words IH]; intros previous; [done|].
  cbn [scan]. destruct (named previous word); cbn [app].
  - by apply sublist_skip.
  - by apply sublist_cons.
Qed.

Lemma scan_rule_like words : forall previous,
  Forall (fun word => rule_like word = true) (scan previous words).
Proof.
  induction words as [|word words IH]; intros previous; [done|].
  cbn [scan]. destruct (named previous word) eqn:E; cbn [app]; [|apply IH].
  constructor; [|apply IH]. unfold named in E.
  destruct previous; [|done]. by apply andb_prop in E as [? _].
Qed.

Lemma scan_first words : length (scan None words) <= length words - 1.
Proof.
  destruct words as [|word words]; [done|].
  cbn [scan named app length].
  pose proof (sublist_length _ _ (scan_sublist words (Some word))). lia.
Qed.

(** X9. The entries that [_extract_rules_from_response] adds are
    "Possible: " and a word of the response that consists of letters
    only and is longer than 2: a word with a digit, a quote or a
    punctuation mark attached is never taken.  It adds fewer entries
    than the response has words; a response of one word, or of none,
    adds nothing. *)
Theorem extract_rules_takes_plain_words response query (h : heap) log :
  h !! _referenced_rules self = Some log ->
  exists new,
    (_extract_rules_from_response self response query h).2
      !! _referenced_rules self = Some (log ++ new)
    /\ length new <= length (Str.split response) - 1
    /\ Forall (fun entry =>
                 exists word,
                   entry = "Possible: " +:+ word
                   /\ word ∈ Str.split response
                   /\ Str.isalpha word = true
                   /\ 2 < String.length word) new.
Proof.
  intros Hlog. rewrite (extract_run _ _ _ _ _ Hlog). cbn [snd].
  rewrite lookup_insert_eq.
  destruct (add_rules_new (possible_entries response) log)
    as (new & -> & Hsub & _).
  exists new. split; [done|]. split.
  - apply sublist_length in Hsub. unfold possible_entries in Hsub.
    rewrite length_map in Hsub.
    pose proof (scan_first (Str.split response)). lia.
  - apply Forall_forall. intros entry Hin.
    apply sublist_submseteq in Hsub.
    apply (elem_of_submseteq _ _ _ Hin) in Hsub.
    unfold possible_entries in Hsub.
    apply list_elem_of_In, in_map_iff in Hsub as (word & <- & Hword).
    apply list_elem_of_In in Hword.
    exists word. split; [done|]. split.
    + pose proof (scan_sublist (Str.split response) None) as Hs.
      apply sublist_submseteq in Hs. by eapply elem_of_submseteq.
    + pose proof (scan_rule_like (Str.split response) None) as Hr.
      rewrite Forall_forall in Hr. specialize (Hr word Hword).
      unfold rule_like in Hr.
      apply andb_prop in Hr as [Hr _]. apply andb_prop in Hr as [Ha Hl].
      split; [done|]. by apply Nat.ltb_lt in Hl.
Qed.

(** X10. A new assistant has an empty log of its own: [__init__]
    binds the log to a list object that was not there before and leaves
    every object that was there as it is; two assistants made one after
    the other have different logs, and the calls made on the first
    leave the log of the second empty. *)
Theorem assistants_do_not_share_a_log
    pdf1 load1 split1 pdf2 load2 split2 ops (h : heap) :
  exists a b (h1 h2 : heap),
    __init__ pdf1 load1 split1 h = (Return a, h1)
    /\ __init__ pdf2 load2 split2 h1 = (Return b, h2)
    /\ h !! _referenced_rules a = None
    /\ h1 !! _referenced_rules a = Some []
    /\ (forall l, is_Some (h !! l) -> h2 !! l = h !! l)
    /\ _referenced_rules a <> _referenced_rules b
    /\ h2 !! _referenced_rules a = Some []
    /\ h2 !! _referenced_rules b = Some []
    /\ perform_all a ops h2 !! _referenced_rules b = Some [].
Proof.
  unfold __init__. eexists _, _, _, _. split; [done|]. split; [done|].
  cbn [_referenced_rules].
  set (la := fresh (dom h)).
  set (lb := fresh (dom (<[la := []]> h))).
  assert (h !! la = None) as Ha by apply not_elem_of_dom, is_fresh.
  assert (<[la := []]> h !! lb = None) as Hb by apply not_elem_of_dom, is_fresh.
  assert (la <> lb) as Hne.
  { intros Heq. rewrite <- Heq, lookup_insert_eq in Hb. done. }
  assert (<[lb := []]> (<[la := []]> h) !! la = Some []) as Hla
    by (by rewrite lookup_insert_ne, lookup_insert_eq).
  split_and!; [done|apply lookup_insert_eq| |done|done|apply lookup_insert_eq|].
  - intros l [x Hl]. rewrite !lookup_insert_ne; [done|congruence|].
    intros <-. rewrite lookup_insert_ne in Hb; congruence.
  - destruct (perform_all_extends
                {| rules_vector_store := _setup_assistant pdf1 load1 split1;
                   _referenced_rules := la |} ops _ [] Hla) as [_ Hframe].
    rewrite Hframe; [apply lookup_insert_eq|by cbn|].
    rewrite lookup_insert_eq. by eexists.
Qed.

(** X11. After [_add_referenced_rule] with a rule that is not empty,
    the list that [get_referenced_rules] returns holds the rule, and
    the elements of the log in their order.  Two calls of
    [get_referenced_rules] return two different list objects with the
    same elements, and neither is the log. *)
Theorem get_referenced_rules_after_add rule (h : heap) log :
  h !! _referenced_rules self = Some log ->
  rule <> "" ->
  exists first second (h1 h2 h3 : heap) log',
    _add_referenced_rule self rule h = (Return tt, h1)
    /\ get_referenced_rules self h1 = (Return first, h2)
    /\ get_referenced_rules self h2 = (Return second, h3)
    /\ h3 !! first = Some log'
    /\ h3 !! second = Some log'
    /\ h3 !! _referenced_rules self = Some log'
    /\ rule ∈ log'
    /\ log `prefix_of` log'
    /\ first <> second
    /\ first <> _referenced_rules self
    /\ second <> _referenced_rules self.
Proof.
  intros Hlog Hrule.
  assert (Str.nonempty rule = true) as Hne by (by destruct rule).
  rewrite (add_rule_run _ _ _ _ Hlog).
  set (h1 := <[_referenced_rules self := add_rule rule log]> h).
  assert (h1 !! _referenced_rules self = Some (add_rule rule log)) as H1
    by apply lookup_insert_eq.
  destruct (get_referenced_rules_run self h1 _ H1) as (Hrun1 & Hf1 & Hn1).
  set (h2 := <[fresh (dom h1) := add_rule rule log]> h1) in *.
  assert (h2 !! _referenced_rules self = Some (add_rule rule log)) as H2
    by (unfold h2; by rewrite lookup_insert_ne).
  destruct (get_referenced_rules_run self h2 _ H2) as (Hrun2 & Hf2 & Hn2).
  assert (fresh (dom h1) <> fresh (dom h2)) as Hdiff.
  { intros Heq. rewrite <- Heq in Hf2. unfold h2 in Hf2.
    by rewrite lookup_insert_eq in Hf2. }
  eexists _, _, _, _, _, _. split; [done|]. split; [exact Hrun1|].
  split; [exact Hrun2|].
  split_and!; [|apply lookup_insert_eq| |by apply add_rule_elem
               |apply add_rule_prefix|done|done|done].
  - rewrite lookup_insert_ne by done. apply lookup_insert_eq.
  - by rewrite lookup_insert_ne.
Qed.

(** X12. When the rulebook file exists and cannot be used (the loader
    raises, or loads no page, or the splitter raises), the index is
    empty; and then, as long as the search returns chunks of the index
    only, [search_rules] adds nothing to the log and returns the
    sentence "No matching rules found in the rulebooks." or an
    "Error searching rules: " string. *)
Theorem unusable_rulebook_finds_nothing load split_documents query (h : heap) :
  rules_vector_store self = _setup_assistant true load split_documents ->
  ((exists e, load = Raise e)
   \/ load = Return []
   \/ (exists pages e, load = Return pages /\ split_documents pages = Raise e)) ->
  (forall docs doc,
      similarity_search (rules_vector_store self) query 4 = Return docs ->
      doc ∈ docs -> doc ∈ documents (rules_vector_store self)) ->
  documents (rules_vector_store self) = []
  /\ (search_rules self query h).2 = h
  /\ ((search_rules self query h).1
      = Return "No matching rules found in the rulebooks."
      \/ exists e,
           (search_rules self query h).1
           = Return ("Error searching rules: " +:+ exc_str e)).
Proof.
  intros Hstore Hfail Hsound.
  assert (documents (rules_vector_store self) = []) as Hempty.
  { rewrite Hstore. cbn.
    destruct Hfail as [[e ->]|[->|(pages & e & -> & Hs)]]; [done..|].
    cbn. destruct pages; [done|]. by rewrite Hs. }
  split; [done|]. unfold search_rules, try_except.
  destruct (similarity_search (rules_vector_store self) query 4)
    as [[|doc docs]|e] eqn:Es.
  - rewrite (search_rules_try_none _ _ _ Es). split; [done|by left].
  - specialize (Hsound _ doc eq_refl ltac:(by left)).
    rewrite Hempty in Hsound. by apply elem_of_nil in Hsound.
  - rewrite (search_rules_try_raise _ _ _ _ Es). unfold ret. cbn [fst snd].
    split; [done|]. right. by exists e.
Qed.

End Sessions.

(** ** The chat window *)

Section Window.

Lemma chat_worker_run a message agent (h : heap) log :
  h !! _referenced_rules a = Some log ->
  ChatWorker_run (mkChatWorker (Some a) message) agent h
  = (Return [response_ready (message_effect a agent message).1],
     <[_referenced_rules a := add_rules (message_effect a agent message).2 log]> h).
Proof.
  intros Hlog. unfold ChatWorker_run, try_except, bind. cbn [worker_assistant worker_message].
  by rewrite (send_message_effect _ _ _ _ _ Hlog).
Qed.

Lemma update_rules_list_run w a (h : heap) log :
  assistant w = Some a ->
  h !! _referenced_rules a = Some log ->
  update_rules_list w h
  = (set_rules_list w (map (fun rule => "📖 " +:+ rule) log),
     <[fresh (dom h) := log]> h).
Proof.
  intros Ha Hlog. unfold update_rules_list, bind, list_elements. rewrite Ha.
  destruct (get_referenced_rules_run a h log Hlog) as (-> & _ & _).
  by rewrite lookup_total_insert_eq.
Qed.

(** the worker of a window in order runs to its end *)
Lemma worker_completes_run w wk a agent timestamp (h : heap) log :
  worker w = Some wk ->
  worker_assistant wk = Some a ->
  assistant w = Some a ->
  h !! _referenced_rules a = Some log ->
  let text := (message_effect a agent (worker_message wk)).1 in
  let log' := add_rules (message_effect a agent (worker_message wk)).2 log in
  let h' := <[_referenced_rules a := log']> h in
  ui_step (w, h) (timestamp, WorkerCompletes agent)
  = (on_worker_finished
       (set_input_enabled
          (set_is_processing
             (set_rules_list
                (show_message
                   (add_message timestamp "Assistant" text false false w) "Ready")
                (map (fun rule => "📖 " +:+ rule) log'))
             false)
          true),
     <[fresh (dom h') := log']> h').
Proof.
  intros Hw Hwa Ha Hlog text log' h'. cbn [ui_step]. rewrite Hw.
  destruct wk as [wa message]. cbn [worker_assistant worker_message] in *. subst wa.
  rewrite (chat_worker_run _ _ _ _ _ Hlog). cbn [foldl deliver fst snd].
  unfold on_response_received.
  erewrite update_rules_list_run; [done|exact Ha|apply lookup_insert_eq].
Qed.

Lemma strip_spaces_nonempty s :
  Str.nonempty (strip_spaces s) = true -> strip_spaces s <> "".
Proof. by destruct (strip_spaces s). Qed.

Lemma ui_step_ok state step : window_ok state -> window_ok (ui_step state step).
Proof.
  destruct state as [w h], step as [timestamp event].
  intros Hok. pose proof Hok as (Heq & Hbusy & Hworker & Hwk & Hassistant & Hlog).
  destruct event as [text| | |agent]; cbn [ui_step].
  - destruct (message_input_enabled w) eqn:E; [|exact Hok].
    unfold window_ok. cbn. rewrite E. by split_and!.
  - destruct (message_input_enabled w || send_button_enabled w) eqn:E;
      [|exact Hok].
    assert (message_input_enabled w = true) as Hen.
    { rewrite <- Heq in E. by destruct (message_input_enabled w). }
    unfold window_send_message.
    destruct (negb (Str.nonempty (strip_spaces (message_input_text w)))
              || is_processing w) eqn:E'; [exact Hok|].
    apply orb_false_elim in E' as [Hne _]. apply negb_false_iff in Hne.
    unfold window_ok. cbn. split_and!; try done.
    + intros wk Hnew. apply (inj Some) in Hnew. subst wk. cbn.
      split; [done|by apply strip_spaces_nonempty].
    + intros _. apply Hassistant. by left.
  - unfold window_ok. cbn. by split_and!.
  - destruct (worker w) as [wk|] eqn:Ew; [|exact Hok].
    destruct (Hwk wk eq_refl) as [Hwa _].
    assert (is_processing w = true) as Hp by (apply Hworker; by eexists).
    destruct (Hassistant (or_intror Hp)) as [a Ha].
    destruct (Hlog a Ha) as [log Hl].
    rewrite Ha in Hwa.
    pose proof (worker_completes_run w wk a agent timestamp h log Ew Hwa Ha Hl)
      as Hrun.
    cbn zeta in Hrun. cbn [ui_step] in Hrun. rewrite Ew in Hrun. rewrite Hrun.
    unfold window_ok. cbn. split_and!; try done.
    intros a' Ha'. assert (a' = a) as -> by congruence.
    rewrite lookup_insert_ne, lookup_insert_eq; [by eexists|].
    intros Hf.
    pose proof (is_fresh (dom (<[_referenced_rules a :=
      add_rules (message_effect a agent (worker_message wk)).2 log]> h))) as Hfresh.
    rewrite Hf in Hfresh. apply Hfresh, elem_of_dom. rewrite lookup_insert_eq.
    by eexists.
Qed.

Lemma ui_run_ok trace : forall state, window_ok state -> window_ok (ui_run trace state).
Proof.
  induction trace as [|step trace IH]; intros state Hok; [done|].
  apply IH. by apply ui_step_ok.
Qed.

Lemma window_init_ok timestamp timestamp' pdf load split_documents (h : heap) :
  window_ok (window_init timestamp timestamp' (__init__ pdf load split_documents) h).
Proof.
  unfold window_init, init_assistant, __init__. cbn.
  split_and!; try done.
  intros a Ha. apply (inj Some) in Ha. subst a. cbn.
  rewrite lookup_insert_eq. by eexists.
Qed.

Lemma lstrip_spaces_first s c :
  Str.first_char (lstrip_spaces s) = Some c -> Str.isspace c = false.
Proof.
  induction s as [|d s IH]; [done|]. cbn [lstrip_spaces].
  destruct (Str.isspace d) eqn:E; [done|]. cbn. by intros [= <-].
Qed.

Lemma rstrip_spaces_first s c :
  Str.first_char (rstrip_spaces s) = Some c -> Str.first_char s = Some c.
Proof.
  destruct s as [|d s]; [done|]. cbn [rstrip_spaces].
  destruct (rstrip_spaces s); [|done]. by destruct (Str.isspace d).
Qed.

Lemma rstrip_spaces_last s c :
  Str.last_char (rstrip_spaces s) = Some c -> Str.isspace c = false.
Proof.
  induction s as [|d s IH]; [done|]. cbn [rstrip_spaces].
  destruct (rstrip_spaces s) as [|d' r] eqn:E.
  - destruct (Str.isspace d) eqn:Ed; [done|]. cbn. by intros [= <-].
  - intros H. by apply IH.
Qed.

Lemma chat_worker_one_signal wk agent (h : heap) :
  exists s h', ChatWorker_run wk agent h = (Return [s], h').
Proof.
  unfold ChatWorker_run, try_except, bind.
  destruct (match worker_assistant wk with
            | Some a => send_message a agent (worker_message wk)
            | None => _
            end h) as [[response|e] h']; by eexists _, _.
Qed.

Lemma update_rules_list_chat w (h : heap) :
  chat_display (update_rules_list w h).1 = chat_display w.
Proof.
  unfold update_rules_list. destruct (assistant w); [|done].
  by destruct (bind _ _ h) as [[rules|e] h'].
Qed.


Lemma ui_step_chat state step :
  chat_display state.1 `prefix_of` chat_display (ui_step state step).1
  /\ length (chat_display (ui_step state step).1) <= S (length (chat_display state.1)).
Proof.
  destruct state as [w h], step as [timestamp event]. cbn [fst].
  assert (forall (l : list string) x,
             l `prefix_of` l ++ [x] /\ length (l ++ [x]) <= S (length l)) as Happ.
  { intros l x. split; [by apply prefix_app_r|]. rewrite length_app. cbn. lia. }
  assert (forall l : list string, l `prefix_of` l /\ length l <= S (length l))
    as Hsame by (intros l; split; [done|lia]).
  destruct event as [text| | |agent]; cbn [ui_step].
  - by destruct (message_input_enabled w).
  - destruct (message_input_enabled w || send_button_enabled w); [|done].
    unfold window_send_message. destruct (_ || _); [done|]. apply Happ.
  - apply Happ.
  - destruct (worker w) as [wk|]; [|done].
    destruct (chat_worker_one_signal wk agent h) as (s & h' & ->).
    cbn [foldl]. destruct s as [response|error]; cbn [deliver fst snd].
    + unfold on_response_received.
      pose proof (update_rules_list_chat
                    (show_message
                       (add_message timestamp "Assistant" response false false w)
                       "Ready") h') as Hchat.
      destruct (update_rules_list _ h') as [w' h'']. cbn in *. rewrite Hchat.
      apply Happ.
    + cbn. apply Happ.
Qed.



(** X14. With an assistant, [ChatWorker.run] emits [response_ready]
    once, with what [send_message] returns, and never
    [error_occurred]: when the agent raises, the signal is
    [response_ready] with the "Error: " string.  Without an assistant
    it emits [error_occurred] with the text of the attribute error. *)
Theorem chat_worker_emits_response a message agent (h : heap) log :
  h !! _referenced_rules a = Some log ->
  exists text h',
    send_message a agent message h = (Return text, h')
    /\ ChatWorker_run (mkChatWorker (Some a) message) agent h
       = (Return [response_ready text], h')
    /\ (forall e h2,
          stream a agent
            (<[_referenced_rules a := add_rule ("Query: " +:+ message) log]> h)
          = (Raise e, h2) ->
          text = "Error: " +:+ exc_str e)
    /\ ChatWorker_run (mkChatWorker None message) agent h
       = (Return
            [error_occurred "'NoneType' object has no attribute 'send_message'"],
          h).
Proof.
  intros Hlog. eexists _, _. split; [by apply send_message_effect|].
  split; [by apply chat_worker_run|]. split; [|done].
  intros e h2 Hstream.
  pose proof (send_message_run a agent message h log Hlog) as Hrun.
  rewrite Hstream, (send_message_effect _ _ _ _ _ Hlog) in Hrun.
  by injection Hrun as -> _.
Qed.


(** X16. When [DnDChatWindow.send_message] starts a request, the
    message of the worker is the text of the input line without the
    spaces at its ends: it is not empty and neither starts nor ends
    with a space; the input line is cleared and one block is appended
    to the chat.  When the text is empty or all spaces, or a request is
    being processed, the window is left as it is. *)
Theorem window_send_message_strips timestamp w :
  let message := strip_spaces (message_input_text w) in
  let w' := window_send_message timestamp w in
  (message = "" \/ is_processing w = true -> w' = w)
  /\ (message <> "" -> is_processing w = false ->
      worker w' = Some (mkChatWorker (assistant w) message)
      /\ (forall c, Str.first_char message = Some c -> Str.isspace c = false)
      /\ (forall c, Str.last_char message = Some c -> Str.isspace c = false)
      /\ message_input_text w' = ""
      /\ is_processing w' = true
      /\ message_input_enabled w' = false
      /\ send_button_enabled w' = false
      /\ chat_display w'
         = chat_display w ++ [formatted_message timestamp "You" message true false]).
Proof.
  cbn zeta. unfold window_send_message. split.
  - intros [Hm|Hp]; [by rewrite Hm|]. by rewrite Hp, orb_true_r.
  - intros Hne Hp. rewrite Hp.
    assert (Str.nonempty (strip_spaces (message_input_text w)) = true) as ->
      by (by destruct (strip_spaces (message_input_text w))).
    cbn [negb orb]. split_and!; try done.
    + intros c Hc. unfold strip_spaces in Hc.
      apply rstrip_spaces_first in Hc. by apply lstrip_spaces_first in Hc.
    + intros c Hc. by apply rstrip_spaces_last in Hc.
Qed.

(** X17. In a state that the window reaches after it is made, when
    its worker runs to its end the window appends one block in the
    style of the assistant with what [send_message] returned, shows
    "Ready", takes the whole log into the rules list, enables the input
    and drops the worker; this is so when the agent failed too: the
    "Error: " string is shown as an answer of the assistant, and
    [on_response_error] is not run. *)
Theorem worker_completes_as_answer
    t0 t1 pdf load split_documents trace (h0 : heap)
    w wk agent timestamp (h : heap) :
  ui_run trace (window_init t0 t1 (__init__ pdf load split_documents) h0) = (w, h) ->
  worker w = Some wk ->
  exists a log text log',
    assistant w = Some a
    /\ h !! _referenced_rules a = Some log
    /\ send_message a agent (worker_message wk) h
       = (Return text, <[_referenced_rules a := log']> h)
    /\ (forall e h2,
          stream a agent
            (<[_referenced_rules a :=
                 add_rule ("Query: " +:+ worker_message wk) log]> h)
          = (Raise e, h2) ->
          text = "Error: " +:+ exc_str e)
    /\ let '(w', h') := ui_step (w, h) (timestamp, WorkerCompletes agent) in
       chat_display w'
       = chat_display w
           ++ [formatted_message timestamp "Assistant" text false false]
       /\ status_bar w' = "Ready"
       /\ rules_list w' = map (fun rule => "📖 " +:+ rule) log'
       /\ h' !! _referenced_rules a = Some log'
       /\ is_processing w' = false
       /\ message_input_enabled w' = true
       /\ send_button_enabled w' = true
       /\ worker w' = None.
Proof.
  intros Hreach Ew.
  pose proof (ui_run_ok trace _
                (window_init_ok t0 t1 pdf load split_documents h0)) as Hok.
  rewrite Hreach in Hok.
  destruct Hok as (Heq & Hbusy & Hworker & Hwk & Hassistant & Hlog).
  destruct (Hwk wk Ew) as [Hwa _].
  assert (is_processing w = true) as Hp by (apply Hworker; by eexists).
  destruct (Hassistant (or_intror Hp)) as [a Ha].
  destruct (Hlog a Ha) as [log Hl]. rewrite Ha in Hwa.
  exists a, log, (message_effect a agent (worker_message wk)).1,
    (add_rules (message_effect a agent (worker_message wk)).2 log).
  split; [done|]. split; [done|].
  split; [by apply send_message_effect|]. split.
  - intros e h2 Hstream.
    pose proof (send_message_run a agent (worker_message wk) h log Hl) as Hrun.
    rewrite Hstream, (send_message_effect _ _ _ _ _ Hl) in Hrun.
    by injection Hrun as -> _.
  - pose proof (worker_completes_run w wk a agent timestamp h log Ew Hwa Ha Hl)
      as Hrun.
    cbn zeta in Hrun. rewrite Hrun. cbn. split_and!; try done.
    rewrite lookup_insert_ne, lookup_insert_eq; [done|].
    intros Hf. pose proof (is_fresh (dom (<[_referenced_rules a :=
      add_rules (message_effect a agent (worker_message wk)).2 log]> h))) as Hfresh.
    rewrite Hf in Hfresh. apply Hfresh, elem_of_dom. rewrite lookup_insert_eq.
    by eexists.
Qed.

(** X18. [clear_rules_list] empties the rules list of the window and
    leaves the heap, and so the log of the assistant, as it is: in a
    state that the window reaches after it is made, when the worker
    then runs to its end, the rules list and the heap are what they
    would be had Clear not been pressed. *)
Theorem clear_is_undone_by_next_answer
    t0 t1 pdf load split_documents trace (h0 : heap)
    w wk agent timestamp timestamp' (h : heap) :
  ui_run trace (window_init t0 t1 (__init__ pdf load split_documents) h0) = (w, h) ->
  worker w = Some wk ->
  rules_list (clear_rules_list timestamp w) = []
  /\ (ui_step (w, h) (timestamp, PressClear)).2 = h
  /\ rules_list (ui_step (ui_step (w, h) (timestamp, PressClear))
                         (timestamp', WorkerCompletes agent)).1
     = rules_list (ui_step (w, h) (timestamp', WorkerCompletes agent)).1
  /\ (ui_step (ui_step (w, h) (timestamp, PressClear))
              (timestamp', WorkerCompletes agent)).2
     = (ui_step (w, h) (timestamp', WorkerCompletes agent)).2.
Proof.
  intros Hreach Ew. split; [done|]. split; [done|].
  pose proof (ui_run_ok trace _
                (window_init_ok t0 t1 pdf load split_documents h0)) as Hok.
  rewrite Hreach in Hok.
  destruct Hok as (Heq & Hbusy & Hworker & Hwk & Hassistant & Hlog).
  destruct (Hwk wk Ew) as [Hwa _].
  assert (is_processing w = true) as Hp by (apply Hworker; by eexists).
  destruct (Hassistant (or_intror Hp)) as [a Ha].
  destruct (Hlog a Ha) as [log Hl]. rewrite Ha in Hwa.
  pose proof (worker_completes_run w wk a agent timestamp' h log Ew Hwa Ha Hl)
    as Hrun.
  pose proof (worker_completes_run (clear_rules_list timestamp w) wk a agent
                timestamp' h log Ew Hwa Ha Hl) as Hrun'.
  cbn zeta in Hrun, Hrun'. change (ui_step (w, h) (timestamp, PressClear))
    with (clear_rules_list timestamp w, h).
  by rewrite Hrun, Hrun'.
Qed.

(** X19. The chat display only grows: whatever happens, the blocks
    shown before are still there, in their order, and one event
    appends at most one block. *)
Theorem chat_display_only_grows trace state :
  chat_display state.1 `prefix_of` chat_display (ui_run trace state).1
  /\ length (chat_display (ui_run trace state).1)
     <= length (chat_display state.1) + length trace.
Proof.
  revert state. induction trace as [|step trace IH]; intros state.
  - cbn. split; [done|lia].
  - change (ui_run (step :: trace) state) with (ui_run trace (ui_step state step)).
    destruct (IH (ui_step state step)) as [Hp Hl].
    destruct (ui_step_chat state step) as [Hp' Hl']. split.
    + by etrans.
    + cbn [length]. lia.
Qed.


End Window.

End Assistant.

(** ** The index of the specification *)

Section IndexFacts.

Context {Vec : Type}.
Variable embed_query : string -> outcome Vec.
Variable similarity : Vec -> Document -> Z.

#[local] Instance closer_trans v : Transitive (closer similarity v).
Proof. intros d1 d2 d3. unfold closer. lia. Qed.

#[local] Instance closer_total v : Total (closer similarity v).
Proof. intros d1 d2. unfold closer. lia. Qed.

Lemma take_StronglySorted {A} (R : relation A) k (l : list A) :
  StronglySorted R l -> StronglySorted R (take k l).
Proof.
  intros Hs. rewrite <- (take_drop k l) in Hs.
  by apply StronglySorted_app_1_l in Hs.
Qed.

(** a search whose query is embedded returns the [k] best chunks, best first *)
Lemma in_memory_search_ranked store query k v :
  embed_query query = Return v ->
  exists docs,
    in_memory_search embed_query similarity store query k = Return docs
    /\ length docs = min k (length (documents store))
    /\ StronglySorted (closer similarity v) docs
    /\ docs ⊆+ documents store.
Proof.
  intros Hv. exists (take k (merge_sort (closer similarity v) (documents store))).
  unfold in_memory_search. rewrite Hv. split_and!.
  - done.
  - by rewrite length_take, (Permutation_length (merge_sort_Permutation _ _)).
  - apply take_StronglySorted, StronglySorted_merge_sort; apply _.
  - etrans; [apply sublist_submseteq, sublist_take|].
    apply Permutation_submseteq, merge_sort_Permutation.
Qed.

(** C6. [search_rules] searches the index with [k = 4] and, when the
    search returns at least one chunk, returns for each returned
    chunk, in the order of the search, the line "Source: Page" with the
    page of the chunk, or N/A when it has none, then a newline and the
    text of the chunk, the chunks being joined by a blank line.  With
    the index of the specification the search returns at most four
    chunks, fewer only if the index holds fewer, ranked by descending
    similarity; and on the index that holds the placeholder chunk
    alone, the answer to "What is a Goliath?" contains
    "Source: Page 123" and "Goliath". *)
Theorem search_rules_rendering self query v (h : heap) log :
  embed_query query = Return v ->
  h !! _referenced_rules self = Some log ->
  (forall similarity_search docs,
      similarity_search (rules_vector_store self) query 4 = Return docs ->
      docs <> [] ->
      (search_rules similarity_search self query h).1
      = Return
          (Str.join (Str.newline +:+ Str.newline)
             (map (fun doc =>
                     "Source: Page "
                     +:+ match metadata doc !! "page" with
                         | Some page => format_value page
                         | None => "N/A"
                         end
                     +:+ Str.newline +:+ page_content doc)
                  docs)))
  /\ (exists docs,
        in_memory_search embed_query similarity (rules_vector_store self) query 4
        = Return docs
        /\ length docs = min 4 (length (documents (rules_vector_store self)))
        /\ StronglySorted
             (fun d1 d2 => (similarity v d2 <= similarity v d1)%Z) docs)
  /\ (query = "What is a Goliath?" ->
      documents (rules_vector_store self) = [placeholder_document] ->
      exists observation,
        (search_rules (in_memory_search embed_query similarity) self query h).1
        = Return observation
        /\ Str.contains "Source: Page 123" observation = true
        /\ Str.contains "Goliath" observation = true).
Proof.
  intros Hv Hlog. split_and!.
  - intros similarity_search docs Hs Hne. unfold search_rules, try_except.
    rewrite (search_rules_try_some _ _ _ _ _ _ Hs Hne Hlog). cbn [fst].
    do 2 f_equal. apply List.map_ext. intros doc. unfold render.
    by destruct (metadata doc !! "page").
  - destruct (in_memory_search_ranked (rules_vector_store self) query 4 v Hv)
      as (docs & Hs & Hlen & Hsorted & _).
    by exists docs.
  - intros _ Hstore. unfold search_rules, try_except.
    erewrite search_rules_try_some;
      [|unfold in_memory_search; by rewrite Hv, Hstore|done|done].
    eexists. split; [done|]. by vm_compute.
Qed.

(** X13. When the rulebook file does not exist, every search whose
    query the model embeds returns the placeholder chunk, whatever the
    query and the similarity: [search_rules] returns "Source: Page 123",
    a newline and the text on the Goliath, and adds the query and
    "Found: Goliath: A race" to the log. *)
Theorem missing_rulebook_answers_goliath
    load split_documents self query v (h : heap) log :
  rules_vector_store self = _setup_assistant false load split_documents ->
  embed_query query = Return v ->
  h !! _referenced_rules self = Some log ->
  search_rules (in_memory_search embed_query similarity) self query h
  = (Return
       ("Source: Page 123" +:+ Str.newline
        +:+ "Goliath: A race of powerful humanoids known for their strength and size."),
     <[_referenced_rules self :=
         add_rules ["Search: " +:+ query; "Found: Goliath: A race"] log]> h).
Proof.
  intros Hstore Hv Hlog.
  rewrite (search_rules_effect _ _ _ _ _ Hlog). unfold search_effect.
  unfold in_memory_search. rewrite Hv, Hstore. cbn [fst snd].
  by vm_compute (found_entries _).
Qed.

End IndexFacts.

(** ** The theorems at work on the example inputs *)

Example init_example :
  __init__ false (Return []) Return ∅ = (Return placeholder_assistant, fresh_heap).
Proof. by vm_compute. Qed.

Example goliath_example :
  search_rules example_search placeholder_assistant
    "What is a Goliath?" fresh_heap
  = (Return
       ("Source: Page 123" +:+ Str.newline
        +:+ "Goliath: A race of powerful humanoids known for their strength and size."),
     {[ 0 := ["Search: What is a Goliath?"; "Found: Goliath: A race"] ]}).
Proof. by vm_compute. Qed.

Example failing_search_example :
  search_rules failing_search placeholder_assistant
    "What is a Goliath?" fresh_heap
  = (Return "Error searching rules: embedding model not loaded", fresh_heap).
Proof. by vm_compute. Qed.

Example answer_example :
  (send_message example_search placeholder_assistant
     tool_then_answer "What is a Goliath?" fresh_heap).1
  = Return
      ("The Goliath is a race. Source: Page 123" +:+ Str.newline
       +:+ "Goliath: A race of powerful humanoids known for their strength and size.").
Proof. by vm_compute. Qed.

Lemma send_message_never_raises_witness :
  fresh_heap !! _referenced_rules placeholder_assistant = Some []
  /\ exists text h',
       send_message example_search placeholder_assistant
         tool_then_fail "hello" fresh_heap = (Return text, h')
       /\ text = "Error: rate limit reached".
Proof.
  split; [reflexivity|].
  destruct (send_message_never_raises example_search
              placeholder_assistant tool_then_fail "hello" fresh_heap []
              eq_refl) as (text & h' & Hrun & Hraise & _).
  exists text, h'. split; [exact Hrun|].
  eapply (Hraise (mkException "APIError" "rate limit reached")).
  vm_compute. reflexivity.
Defined.

Lemma referenced_rules_no_duplicates_witness :
  fresh_heap !! _referenced_rules placeholder_assistant = Some []
  /\ NoDup ([] : list string)
  /\ exists log1 log2,
       perform_all example_search placeholder_assistant
         (take 3 example_calls) fresh_heap !! _referenced_rules placeholder_assistant
       = Some log1
       /\ perform_all example_search placeholder_assistant
            (take 3 example_calls ++ drop 3 example_calls) fresh_heap
            !! _referenced_rules placeholder_assistant
          = Some log2
       /\ NoDup log1 /\ NoDup log2
       /\ [] `prefix_of` log1 /\ log1 `prefix_of` log2.
Proof.
  split; [reflexivity|]. split; [constructor|].
  apply (referenced_rules_no_duplicates example_search
           placeholder_assistant (take 3 example_calls) (drop 3 example_calls)
           fresh_heap []);
    [reflexivity|constructor].
Defined.

Example session_example :
  perform_all example_search placeholder_assistant
    example_calls fresh_heap
  = {[ 0 := ["Query: What is a Goliath?"; "Search: Goliath";
             "Found: Goliath: A race"; "Possible: Goliath"; "Possible: Page";
             "Possible: Fireball"];
       1 := ["Query: What is a Goliath?"; "Search: Goliath";
             "Found: Goliath: A race"; "Possible: Goliath"; "Possible: Page"];
       2 := ["Query: What is a Goliath?"; "Search: Goliath";
             "Found: Goliath: A race"; "Possible: Goliath"; "Possible: Page";
             "Possible: Fireball"] ]}.
Proof. by vm_compute. Qed.

(** C4, as the specification states it, fails: on an index that holds
    no chunk the search returns no result, and [search_rules] returns
    before it adds the entry of the query. *)
Lemma search_rules_without_results_logs_nothing :
  search_rules example_search empty_assistant
    "What is a Goliath?" fresh_heap
  = (Return "No matching rules found in the rulebooks.", fresh_heap)
  /\ "Search: What is a Goliath?" ∉ fresh_heap !!! _referenced_rules empty_assistant.
Proof.
  split; [by vm_compute|]. vm_compute. apply not_elem_of_nil.
Qed.

Lemma search_rules_log_witness :
  example_search
    (rules_vector_store placeholder_assistant) "What is a Goliath?" 4
  = Return [placeholder_document]
  /\ fresh_heap !! _referenced_rules placeholder_assistant = Some []
  /\ (search_rules example_search placeholder_assistant
        "What is a Goliath?" fresh_heap).2
     = <[_referenced_rules placeholder_assistant :=
           add_rules (("Search: " +:+ "What is a Goliath?")
                        :: found_entries [placeholder_document]) []]> fresh_heap.
Proof.
  split; [reflexivity|]. split; [reflexivity|].
  apply (search_rules_log example_search placeholder_assistant
           "What is a Goliath?" [placeholder_document] fresh_heap []);
    [reflexivity|reflexivity|discriminate].
Defined.

Lemma search_rules_no_results_witness :
  example_search
    (rules_vector_store empty_assistant) "What is a Goliath?" 4 = Return []
  /\ (search_rules example_search empty_assistant
        "What is a Goliath?" fresh_heap).1
     = Return "No matching rules found in the rulebooks.".
Proof.
  split; [reflexivity|].
  apply (search_rules_no_results example_search empty_assistant
           "What is a Goliath?" fresh_heap).
  reflexivity.
Defined.

Lemma search_rules_rendering_witness :
  constant_embedding "What is a Goliath?" = Return tt
  /\ fresh_heap !! _referenced_rules placeholder_assistant = Some []
  /\ exists observation,
       (search_rules example_search placeholder_assistant
          "What is a Goliath?" fresh_heap).1 = Return observation
       /\ Str.contains "Source: Page 123" observation = true
       /\ Str.contains "Goliath" observation = true.
Proof.
  split; [reflexivity|]. split; [reflexivity|].
  destruct (search_rules_rendering constant_embedding text_length
              placeholder_assistant "What is a Goliath?" tt fresh_heap []
              eq_refl eq_refl) as (_ & _ & Hgoliath).
  apply Hgoliath; reflexivity.
Defined.

Lemma extract_rules_from_response_entries_witness :
  fresh_heap !! _referenced_rules placeholder_assistant = Some []
  /\ _extract_rules_from_response placeholder_assistant
       "The Fireball spell deals damage." "What does Fireball do?" fresh_heap
     = (Return tt,
        <[_referenced_rules placeholder_assistant :=
            add_rules (possible_entries "The Fireball spell deals damage.") []]>
          fresh_heap)
  /\ possible_entries "The Fireball spell deals damage." = ["Possible: Fireball"].
Proof.
  split; [reflexivity|].
  destruct (extract_rules_from_response_entries placeholder_assistant
              "The Fireball spell deals damage." "What does Fireball do?"
              fresh_heap [] eq_refl) as [Hrun Hfireball].
  split; [exact Hrun|]. apply Hfireball. reflexivity.
Defined.

(** C8, as the specification states it, fails: the placeholder chunk
    of the index built for a missing file has a page number. *)
Lemma placeholder_has_page_number :
  exists doc,
    documents (_setup_assistant false (Return []) Return) = [doc]
    /\ metadata doc !! "page" = Some (MInt 123)
    /\ metadata doc !! "page" <> None.
Proof. exists placeholder_document. by split_and!. Qed.

Lemma get_referenced_rules_snapshot_witness :
  fresh_heap !! _referenced_rules placeholder_assistant = Some []
  /\ exists snapshot h',
       get_referenced_rules placeholder_assistant fresh_heap = (Return snapshot, h')
       /\ snapshot <> _referenced_rules placeholder_assistant
       /\ perform_all example_search placeholder_assistant
            example_calls h' !! snapshot = Some [].
Proof.
  split; [reflexivity|].
  destruct (get_referenced_rules_snapshot example_search
              placeholder_assistant fresh_heap [] eq_refl)
    as (snapshot & h' & Hrun & Hne & _ & _ & _ & Hlater & _).
  exists snapshot, h'. split; [exact Hrun|]. split; [exact Hne|].
  apply Hlater.
Defined.

Lemma send_message_keeps_query_on_error_witness :
  fresh_heap !! _referenced_rules placeholder_assistant = Some []
  /\ stream example_search placeholder_assistant tool_then_fail
       (<[_referenced_rules placeholder_assistant :=
            add_rule ("Query: " +:+ "hello") []]> fresh_heap)
     = (Raise (mkException "APIError" "rate limit reached"),
        {[ 0 := ["Query: hello"; "Search: Goliath"; "Found: Goliath: A race"] ]})
  /\ send_message example_search placeholder_assistant
       tool_then_fail "hello" fresh_heap
     = (Return "Error: rate limit reached",
        {[ 0 := ["Query: hello"; "Search: Goliath"; "Found: Goliath: A race"] ]}).
Proof.
  split; [reflexivity|]. split; [vm_compute; reflexivity|].
  apply (send_message_keeps_query_on_error example_search
           placeholder_assistant tool_then_fail "hello" fresh_heap []
           (mkException "APIError" "rate limit reached")
           {[ 0 := ["Query: hello"; "Search: Goliath"; "Found: Goliath: A race"] ]});
    [reflexivity|vm_compute; reflexivity].
Defined.

(** ** The further properties at work on the example inputs *)

Example window_example :
  ui_run example_search ask_goliath
    (window_init "10:00" "10:01" (__init__ false (Return []) Return) ∅)
  = (busy_window, fresh_heap).
Proof. by vm_compute. Qed.

Lemma session_log_witness :
  fresh_heap !! _referenced_rules placeholder_assistant = Some []
  /\ perform_all example_search placeholder_assistant example_calls fresh_heap
       !! _referenced_rules placeholder_assistant
     = Some (add_rules
               (concat (map (entries_of example_search placeholder_assistant)
                            example_calls)) []).
Proof.
  split; [reflexivity|].
  apply (session_log example_search placeholder_assistant example_calls
           fresh_heap [] eq_refl).
Defined.

Lemma repeated_call_changes_nothing_witness :
  fresh_heap !! _referenced_rules placeholder_assistant = Some []
  /\ SendMessage tool_then_answer "What is a Goliath?" <> GetReferencedRules
  /\ perform example_search placeholder_assistant
       (SendMessage tool_then_answer "What is a Goliath?")
       (perform example_search placeholder_assistant
          (SendMessage tool_then_answer "What is a Goliath?") fresh_heap)
     = perform example_search placeholder_assistant
         (SendMessage tool_then_answer "What is a Goliath?") fresh_heap.
Proof.
  split; [reflexivity|]. split; [discriminate|].
  apply (repeated_call_changes_nothing example_search placeholder_assistant
           (SendMessage tool_then_answer "What is a Goliath?") fresh_heap []);
    [reflexivity|discriminate].
Defined.

Lemma log_has_no_empty_entry_witness :
  fresh_heap !! _referenced_rules placeholder_assistant = Some []
  /\ Forall (fun entry : string => entry <> "") []
  /\ exists log',
       perform_all example_search placeholder_assistant
         (AddReferencedRule "" :: example_calls) fresh_heap
         !! _referenced_rules placeholder_assistant = Some log'
       /\ Forall (fun entry => entry <> "") log'.
Proof.
  split; [reflexivity|]. split; [constructor|].
  apply (log_has_no_empty_entry example_search placeholder_assistant
           (AddReferencedRule "" :: example_calls) fresh_heap []);
    [reflexivity|constructor].
Defined.

Lemma log_entries_are_labelled_witness :
  fresh_heap !! _referenced_rules placeholder_assistant = Some []
  /\ Forall (fun entry => labelled entry = true) []
  /\ Forall (fun op => public op = true)
       [SendMessage tool_then_answer "What is a Goliath?"; GetReferencedRules;
        SearchRules "Goliath"]
  /\ exists log',
       perform_all example_search placeholder_assistant
         [SendMessage tool_then_answer "What is a Goliath?"; GetReferencedRules;
          SearchRules "Goliath"] fresh_heap
         !! _referenced_rules placeholder_assistant = Some log'
       /\ Forall (fun entry =>
                    String.prefix "Query: " entry = true
                    \/ String.prefix "Search: " entry = true
                    \/ String.prefix "Found: " entry = true
                    \/ String.prefix "Possible: " entry = true) log'.
Proof.
  split; [reflexivity|]. split; [constructor|].
  split; [repeat constructor|].
  apply (log_entries_are_labelled example_search placeholder_assistant
           [SendMessage tool_then_answer "What is a Goliath?"; GetReferencedRules;
            SearchRules "Goliath"] fresh_heap []);
    [reflexivity|constructor|repeat constructor].
Defined.

Lemma search_rules_observation_shape_witness :
  fresh_heap !! _referenced_rules placeholder_assistant = Some []
  /\ exists observation,
       (search_rules example_search placeholder_assistant "Goliath" fresh_heap).1
       = Return observation
       /\ (String.prefix "Source: Page " observation = true
           \/ observation = "No matching rules found in the rulebooks."
           \/ String.prefix "Error searching rules: " observation = true).
Proof.
  split; [reflexivity|].
  destruct (search_rules_observation_shape example_search placeholder_assistant
              "Goliath" fresh_heap [] eq_refl) as (observation & Hrun & _ & Hshape).
  exists observation. split; [exact Hrun|exact Hshape].
Defined.

Lemma search_rules_adds_at_most_three_witness :
  fresh_heap !! _referenced_rules placeholder_assistant = Some []
  /\ exists new,
       (search_rules example_search placeholder_assistant "Goliath" fresh_heap).2
         !! _referenced_rules placeholder_assistant = Some ([] ++ new)
       /\ length new <= 3.
Proof.
  split; [reflexivity|].
  destruct (search_rules_adds_at_most_three example_search placeholder_assistant
              "Goliath" fresh_heap [] eq_refl) as (new & Hrun & Hlen & _).
  exists new. split; [exact Hrun|exact Hlen].
Defined.

Lemma send_message_logs_query_first_witness :
  fresh_heap !! _referenced_rules placeholder_assistant = Some []
  /\ exists log',
       (send_message example_search placeholder_assistant tool_then_answer
          "What is a Goliath?" fresh_heap).2
         !! _referenced_rules placeholder_assistant = Some log'
       /\ exists rest, log' = [] ++ "Query: What is a Goliath?" :: rest.
Proof.
  split; [reflexivity|].
  destruct (send_message_logs_query_first example_search placeholder_assistant
              tool_then_answer "What is a Goliath?" fresh_heap [] eq_refl)
    as (log' & Hrun & Hnew & _).
  exists log'. split; [exact Hrun|]. apply Hnew. apply not_elem_of_nil.
Defined.

Lemma send_message_without_answer_witness :
  fresh_heap !! _referenced_rules placeholder_assistant = Some []
  /\ stream example_search placeholder_assistant silent_agent
       (<[_referenced_rules placeholder_assistant :=
            add_rule ("Query: " +:+ "hello") []]> fresh_heap)
     = (Return [], {[ 0 := ["Query: hello"] ]})
  /\ send_message example_search placeholder_assistant silent_agent "hello"
       fresh_heap
     = (Return "Sorry, I couldn't generate a response.",
        {[ 0 := ["Query: hello"] ]}).
Proof.
  split; [reflexivity|]. split; [vm_compute; reflexivity|].
  apply (send_message_without_answer example_search placeholder_assistant
           silent_agent "hello" [] fresh_heap {[ 0 := ["Query: hello"] ]} []);
    [reflexivity|vm_compute; reflexivity|left; reflexivity].
Defined.

Lemma extract_rules_takes_plain_words_witness :
  fresh_heap !! _referenced_rules placeholder_assistant = Some []
  /\ exists new,
       (_extract_rules_from_response placeholder_assistant
          "Use the Fireball, not Magic Missile3." "q" fresh_heap).2
         !! _referenced_rules placeholder_assistant = Some ([] ++ new)
       /\ length new
          <= length (Str.split "Use the Fireball, not Magic Missile3.") - 1.
Proof.
  split; [reflexivity|].
  destruct (extract_rules_takes_plain_words placeholder_assistant
              "Use the Fireball, not Magic Missile3." "q" fresh_heap [] eq_refl)
    as (new & Hrun & Hlen & _).
  exists new. split; [exact Hrun|exact Hlen].
Defined.

Example plain_words_example :
  (_extract_rules_from_response placeholder_assistant
     "Use the Fireball, not Magic Missile3." "q" fresh_heap).2
  = {[ 0 := ["Possible: Magic"] ]}.
Proof. by vm_compute. Qed.

Lemma get_referenced_rules_after_add_witness :
  fresh_heap !! _referenced_rules placeholder_assistant = Some []
  /\ "Search: Goliath" <> ""
  /\ exists first second (h1 h2 h3 : heap) log',
       _add_referenced_rule placeholder_assistant "Search: Goliath" fresh_heap
       = (Return tt, h1)
       /\ get_referenced_rules placeholder_assistant h1 = (Return first, h2)
       /\ get_referenced_rules placeholder_assistant h2 = (Return second, h3)
       /\ h3 !! first = Some log'
       /\ h3 !! second = Some log'
       /\ "Search: Goliath" ∈ log'
       /\ first <> second.
Proof.
  split; [reflexivity|]. split; [discriminate|].
  destruct (get_referenced_rules_after_add placeholder_assistant
              "Search: Goliath" fresh_heap [] eq_refl ltac:(discriminate))
    as (first & second & h1 & h2 & h3 & log' & H1 & H2 & H3 & H4 & H5 & _ & H6
        & _ & H7 & _).
  exists first, second, h1, h2, h3, log'.
  repeat (split; [eassumption|]). exact H7.
Defined.

Lemma unusable_rulebook_finds_nothing_witness :
  rules_vector_store empty_assistant = _setup_assistant true (Return []) Return
  /\ (search_rules example_search empty_assistant "Goliath" fresh_heap).2
     = fresh_heap
  /\ documents (rules_vector_store empty_assistant) = [].
Proof.
  split; [reflexivity|].
  destruct (unusable_rulebook_finds_nothing example_search empty_assistant
              (Return []) Return "Goliath" fresh_heap eq_refl
              (or_intror (or_introl eq_refl)))
    as (Hempty & Hheap & _).
  - intros docs doc Hsearch. vm_compute in Hsearch.
    injection Hsearch as <-. intros Hin. exact Hin.
  - split; [exact Hheap|exact Hempty].
Defined.

Lemma missing_rulebook_answers_goliath_witness :
  rules_vector_store placeholder_assistant
  = _setup_assistant false (Return []) Return
  /\ constant_embedding "Is a Tiefling tall?" = Return tt
  /\ fresh_heap !! _referenced_rules placeholder_assistant = Some []
  /\ search_rules example_search placeholder_assistant "Is a Tiefling tall?"
       fresh_heap
     = (Return
          ("Source: Page 123" +:+ Str.newline
           +:+ "Goliath: A race of powerful humanoids known for their strength and size."),
        <[_referenced_rules placeholder_assistant :=
            add_rules ["Search: " +:+ "Is a Tiefling tall?";
                       "Found: Goliath: A race"] []]> fresh_heap).
Proof.
  split; [reflexivity|]. split; [reflexivity|]. split; [reflexivity|].
  apply (missing_rulebook_answers_goliath constant_embedding text_length
           (Return []) Return placeholder_assistant "Is a Tiefling tall?" tt
           fresh_heap []); reflexivity.
Defined.

Lemma chat_worker_emits_response_witness :
  fresh_heap !! _referenced_rules placeholder_assistant = Some []
  /\ exists h',
       ChatWorker_run example_search
         (mkChatWorker (Some placeholder_assistant) "hello") tool_then_fail
         fresh_heap
       = (Return [response_ready "Error: rate limit reached"], h').
Proof.
  split; [reflexivity|].
  destruct (chat_worker_emits_response example_search placeholder_assistant
              "hello" tool_then_fail fresh_heap [] eq_refl)
    as (text & h' & _ & Hrun & Herror & _).
  exists h'. rewrite Hrun.
  assert (text = "Error: rate limit reached") as ->; [|reflexivity].
  eapply (Herror (mkException "APIError" "rate limit reached")).
  vm_compute. reflexivity.
Defined.

Lemma worker_completes_as_answer_witness :
  ui_run example_search ask_goliath
    (window_init "10:00" "10:01" (__init__ false (Return []) Return) ∅)
  = (busy_window, fresh_heap)
  /\ worker busy_window
     = Some (mkChatWorker (Some placeholder_assistant) "What is a Goliath?")
  /\ status_bar
       (ui_step example_search (busy_window, fresh_heap)
          ("10:03", WorkerCompletes tool_then_fail)).1 = "Ready".
Proof.
  assert (ui_run example_search ask_goliath
            (window_init "10:00" "10:01" (__init__ false (Return []) Return) ∅)
          = (busy_window, fresh_heap)) as Hreach by (vm_compute; reflexivity).
  split; [exact Hreach|]. split; [reflexivity|].
  destruct (worker_completes_as_answer example_search "10:00" "10:01" false
              (Return []) Return ask_goliath ∅ busy_window
              (mkChatWorker (Some placeholder_assistant) "What is a Goliath?")
              tool_then_fail "10:03" fresh_heap
              Hreach eq_refl)
    as (a & log & text & log' & _ & _ & _ & _ & Hstep).
  destruct (ui_step example_search (busy_window, fresh_heap)
              ("10:03", WorkerCompletes tool_then_fail)) as [w' h'].
  destruct Hstep as (_ & Hstatus & _). exact Hstatus.
Defined.

Example failed_request_example :
  let w' := (ui_step example_search (busy_window, fresh_heap)
               ("10:03", WorkerCompletes tool_then_fail)).1 in
  last (chat_display w')
  = Some (formatted_message "10:03" "Assistant" "Error: rate limit reached"
            false false)
  /\ rules_list w'
     = ["📖 Query: What is a Goliath?"; "📖 Search: Goliath";
        "📖 Found: Goliath: A race"].
Proof. by vm_compute. Qed.

Lemma clear_is_undone_by_next_answer_witness :
  ui_run example_search ask_goliath
    (window_init "10:00" "10:01" (__init__ false (Return []) Return) ∅)
  = (busy_window, fresh_heap)
  /\ worker busy_window
     = Some (mkChatWorker (Some placeholder_assistant) "What is a Goliath?")
  /\ rules_list
       (ui_step example_search
          (ui_step example_search (busy_window, fresh_heap) ("10:03", PressClear))
          ("10:04", WorkerCompletes tool_then_answer)).1
     = rules_list
         (ui_step example_search (busy_window, fresh_heap)
            ("10:04", WorkerCompletes tool_then_answer)).1.
Proof.
  assert (ui_run example_search ask_goliath
            (window_init "10:00" "10:01" (__init__ false (Return []) Return) ∅)
          = (busy_window, fresh_heap)) as Hreach by (vm_compute; reflexivity).
  split; [exact Hreach|]. split; [reflexivity|].
  destruct (clear_is_undone_by_next_answer example_search "10:00" "10:01" false
              (Return []) Return ask_goliath ∅ busy_window
              (mkChatWorker (Some placeholder_assistant) "What is a Goliath?")
              tool_then_answer "10:03" "10:04" fresh_heap
              Hreach eq_refl)
    as (_ & _ & Hsame & _).
  exact Hsame.
Defined.

